(** * cvhelper.image_operations: a shallow embedding and its properties

    The module [cvhelper/image_operations.py] is a layer of small Python
    functions over NumPy arrays and the OpenCV bindings ([cv2]).  The
    embedding below keeps the three ingredients apart:

    - [np]: the part of NumPy the module relies on (integer types, shape,
      size, basic integer indexing, assignment with conversion and
      broadcasting, subtraction of a Python [int], [zeros_like]);
    - [cv]: the OpenCV entry points the module calls.  Their numerics are
      not part of this repository, so a call is a value of type [cv.call]
      that is handed to an arbitrary implementation and recorded in a log;
    - the Python functions themselves, written in a state-and-exception
      monad over a heap of arrays, because the module mutates arrays that
      are shared between objects. *)

From Stdlib Require Import ZArith Floats.
From stdpp Require Import base list gmap strings pretty.

Set Default Proof Using "Type".

(** ** Python exceptions and outcomes *)

Inductive exn : Type :=
  | ValueError (msg : string)
  | TypeError (msg : string)
  | IndexError
  | KeyError (key : string)
  | AttributeError (msg : string)
  | ZeroDivisionError
  | OverflowError
  | SystemError (msg : string)
  | cv_error (msg : string).

Inductive result (A : Type) : Type :=
  | Ok (a : A)
  | Raise (e : exn).
Arguments Ok {A} a.
Arguments Raise {A} e.

Definition result_bind {A B} (r : result A) (f : A → result B) : result B :=
  match r with
  | Ok a => f a
  | Raise e => Raise e
  end.

(** ** NumPy arrays *)

Module np.

(** The integer types of samples.  [cv.findContours] returns points of
    type [int32]; an 8-bit image has type [uint8]. *)
Inductive integer : Type :=
  | int8 | int16 | int32 | int64 | uint8 | uint16 | uint32 | uint64.

Global Instance integer_eq_dec : EqDecision integer.
Proof. solve_decision. Defined.

Definition bits (t : integer) : Z :=
  match t with
  | int8 | uint8 => 8
  | int16 | uint16 => 16
  | int32 | uint32 => 32
  | int64 | uint64 => 64
  end.

Definition signed (t : integer) : bool :=
  match t with
  | int8 | int16 | int32 | int64 => true
  | uint8 | uint16 | uint32 | uint64 => false
  end.

(** The values of a type: [np.iinfo(t).min] to [np.iinfo(t).max]. *)
Definition min_value (t : integer) : Z :=
  if signed t then (- 2 ^ (bits t - 1))%Z else 0%Z.

Definition max_value (t : integer) : Z :=
  ((if signed t then 2 ^ (bits t - 1) else 2 ^ bits t) - 1)%Z.

Definition in_range (t : integer) (v : Z) : Prop :=
  (min_value t ≤ v ≤ max_value t)%Z.

Global Instance in_range_dec t v : Decision (in_range t v).
Proof. unfold in_range. apply _. Defined.

(** An integer reduced to the type [t]: the value of the same residue
    modulo [2 ^ bits t] that the type holds.  This is what fixed-width
    arithmetic and a conversion between integer types leave. *)
Definition wrap (t : integer) (v : Z) : Z :=
  ((v - min_value t) `mod` 2 ^ bits t + min_value t)%Z.

(** An array is its type, its shape and its samples in row-major order.
    Samples are integers; the module never computes on image samples, and
    on contour coordinates it only subtracts. *)
Record ndarray : Type :=
  NdArray { dtype : integer; shape : list nat; data : list Z }.

(** Number of samples of a shape: the product of the extents. *)
Definition numel (sh : list nat) : nat := foldr Nat.mul 1 sh.

(** [a.size] and [a.ndim]. *)
Definition size (a : ndarray) : nat := numel (shape a).
Definition ndim (a : ndarray) : nat := length (shape a).

(** The buffer holds exactly [size] samples. *)
Definition wf (a : ndarray) : Prop := length (data a) = size a.

(** Every sample is a value of the type of the array. *)
Definition typed (a : ndarray) : Prop := Forall (in_range (dtype a)) (data a).

(** [np.zeros_like(a)]. *)
Definition zeros_like (a : ndarray) : ndarray :=
  NdArray (dtype a) (shape a) (replicate (size a) 0%Z).

(** An integer index against an axis of extent [d]: negative indices
    count from the end, anything outside [-d, d) is an [IndexError]. *)
Definition norm_index (d : nat) (i : Z) : option nat :=
  if decide (0 ≤ i < Z.of_nat d)%Z then Some (Z.to_nat i)
  else if decide (- Z.of_nat d ≤ i < 0)%Z then Some (Z.to_nat (i + Z.of_nat d))
  else None.

(** Offset of the sub-array selected by a tuple of integer indices on the
    leading axes, with the shape that is left. *)
Fixpoint offset (sh : list nat) (idx : list Z) {struct idx}
  : option (nat * list nat) :=
  match idx, sh with
  | [], _ => Some (0, sh)
  | i :: idx', d :: sh' =>
      match norm_index d i, offset sh' idx' with
      | Some k, Some (o, rest) => Some (k * numel sh' + o, rest)
      | _, _ => None
      end
  | _ :: _, [] => None
  end.

(** [a[i0, i1, ...]] for integer indices.  A fully indexed array gives a
    NumPy scalar, represented as the array of shape [()]. *)
Definition getitem (a : ndarray) (idx : list Z) : result ndarray :=
  match offset (shape a) idx with
  | None => Raise IndexError
  | Some (o, rest) =>
      Ok (NdArray (dtype a) rest (take (numel rest) (drop o (data a))))
  end.

(** [l] cut into [n] consecutive pieces of [sz] samples. *)
Fixpoint chunks (n sz : nat) (l : list Z) : list (list Z) :=
  match n with
  | O => []
  | S n' => take sz l :: chunks n' sz (drop sz l)
  end.

(** All results of a list of partial computations, or nothing. *)
Fixpoint sequence {A} (l : list (option A)) : option (list A) :=
  match l with
  | [] => Some []
  | x :: l' =>
      match x, sequence l' with
      | Some a, Some r => Some (a :: r)
      | _, _ => None
      end
  end.

(** NumPy broadcasting of a value of shape [vsh] to the shape [tsh] of
    the assigned region: shapes are aligned on the right, an extent 1 of
    the value is repeated, missing leading axes are repeated. *)
Fixpoint broadcast (vsh : list nat) (vdata : list Z) (tsh : list nat)
  : option (list Z) :=
  match tsh with
  | [] => match vsh with [] => Some vdata | _ :: _ => None end
  | d :: tsh' =>
      if decide (length vsh ≤ length tsh') then
        r ← broadcast vsh vdata tsh'; Some (concat (replicate d r))
      else
        match vsh with
        | [] => None
        | e :: vsh' =>
            if decide (e = d) then
              @concat Z <$> sequence
                ((λ c, broadcast vsh' c tsh') <$> chunks d (numel vsh') vdata)
            else if decide (e = 1) then
              r ← broadcast vsh' vdata tsh'; Some (concat (replicate d r))
            else None
        end
  end.

(** Leading axes of extent 1 in excess of the target rank are dropped
    before broadcasting. *)
Fixpoint strip_ones (n : nat) (sh : list nat) : option (list nat) :=
  match n, sh with
  | O, _ => Some sh
  | S n', 1 :: sh' => strip_ones n' sh'
  | S _, _ => None
  end.

Definition broadcast_to (v : ndarray) (tsh : list nat) : option (list Z) :=
  sh ← strip_ones (length (shape v) - length tsh) (shape v);
  broadcast sh (data v) tsh.

Definition broadcast_error : exn :=
  ValueError "could not broadcast input array".

Definition sequence_error : exn :=
  ValueError "setting an array element with a sequence.".

(** [v.astype(t)], as an assignment converts an array: between integer
    types the conversion keeps the residue. *)
Definition astype (t : integer) (v : ndarray) : ndarray :=
  NdArray t (shape v) (wrap t <$> data v).

(** What stands on the right of an assignment: a Python [int], a tuple of
    Python [int]s, or an array (a NumPy scalar being the array of shape
    [()]). *)
Inductive array_like : Type :=
  | py_int (z : Z)
  | py_tuple (zs : list Z)
  | array (a : ndarray).

(** The value as an array of type [t].  A Python [int] must be a value of
    the type, or [OverflowError] is raised; an array is converted. *)
Definition asarray (t : integer) (v : array_like) : result ndarray :=
  match v with
  | py_int z =>
      if decide (in_range t z) then Ok (NdArray t [] [z])
      else Raise OverflowError
  | py_tuple zs =>
      if decide (Forall (in_range t) zs) then Ok (NdArray t [length zs] zs)
      else Raise OverflowError
  | array a => Ok (astype t a)
  end.

(** An array on the right of an assignment holds its samples. *)
Definition wf_like (v : array_like) : Prop :=
  match v with
  | array a => wf a
  | _ => True
  end.

Definition is_scalar (v : array_like) : bool :=
  match v with
  | py_int _ => true
  | py_tuple _ => false
  | array a => bool_decide (shape a = [])
  end.

(** The samples that the assignment of [v] writes to a region of shape
    [tsh] of an array of type [t].  A single element takes a scalar only;
    a region takes the value converted and broadcast to its shape. *)
Definition assigned (t : integer) (v : array_like) (tsh : list nat)
  : result (list Z) :=
  if decide (tsh = [] ∧ is_scalar v = false) then Raise sequence_error
  else
    match asarray t v with
    | Raise e => Raise e
    | Ok w =>
        match broadcast_to w tsh with
        | None => Raise broadcast_error
        | Some vs => Ok vs
        end
    end.

(** [a[i0, i1, ...] = v] for integer indices: the index is resolved
    first, then the selected region is overwritten by the samples that
    [v] gives. *)
Definition setitem (a : ndarray) (idx : list Z) (v : array_like)
  : result ndarray :=
  match offset (shape a) idx with
  | None => Raise IndexError
  | Some (o, rest) =>
      match assigned (dtype a) v rest with
      | Raise e => Raise e
      | Ok vs =>
          Ok (NdArray (dtype a) (shape a)
                (take o (data a) ++ vs ++ drop (o + numel rest) (data a)))
      end
  end.

(** Extent of the last axis, [a.shape[-1]]. *)
Definition last_extent (a : ndarray) : option nat := last (shape a).

(** Shape without its last axis. *)
Definition init_shape (a : ndarray) : list nat :=
  take (length (shape a) - 1) (shape a).

(** Sample [i] of each of [n] groups of [c] consecutive samples. *)
Definition samples (c i n : nat) (l : list Z) : list Z :=
  (λ j, default 0%Z (l !! (j * c + i))) <$> seq 0 n.

(** The contents of [a[..., i]] when [c] is the last extent. *)
Definition channel (a : ndarray) (c i : nat) : ndarray :=
  NdArray (dtype a) (init_shape a)
    (samples c i (numel (init_shape a)) (data a)).

(** [a[..., i]] for an index [i] that is not negative. *)
Definition get_last (a : ndarray) (i : nat) : result ndarray :=
  match last_extent a with
  | None => Raise IndexError
  | Some c => if decide (i < c) then Ok (channel a c i) else Raise IndexError
  end.

(** The buffer of [a] after sample [i] of every group of [c] samples has
    been overwritten by the samples [vs], in order. *)
Definition put_channel (c i : nat) (vs : list Z) (l : list Z) : list Z :=
  imap (λ p x, if decide (p `mod` c = i) then default x (vs !! (p `div` c)) else x) l.

(** [a[..., i] = v] for an array [v] and an index [i] that is not
    negative: [v] is converted to the type of [a]. *)
Definition set_last (a : ndarray) (i : nat) (v : ndarray) : result ndarray :=
  match last_extent a with
  | None => Raise IndexError
  | Some c =>
      if decide (i < c) then
        match broadcast_to (astype (dtype a) v) (init_shape a) with
        | None => Raise broadcast_error
        | Some vs =>
            Ok (NdArray (dtype a) (shape a) (put_channel c i vs (data a)))
        end
      else Raise IndexError
  end.

(** [a - x] for an array or NumPy scalar [a] and a Python [int] [x], by
    the promotion rules of NumPy 2: the Python [int] takes the type of [a]
    and must be a value of it, or [OverflowError] is raised; the
    difference is computed in that type, sample by sample, and wraps
    around. *)
Definition sub_scalar (a : ndarray) (x : Z) : result ndarray :=
  if decide (in_range (dtype a) x) then
    Ok (NdArray (dtype a) (shape a)
          ((λ v, wrap (dtype a) (v - x)%Z) <$> data a))
  else Raise OverflowError.

(** [len(a)]: the first extent; a 0-dimensional array has no length. *)
Definition len (a : ndarray) : result nat :=
  match shape a with
  | [] => Raise (TypeError "len() of unsized object")
  | d :: _ => Ok d
  end.

End np.

(** ** The OpenCV interface *)

Module cv.

(** Flag values of the OpenCV headers ([imgproc.hpp], [core/base.hpp]). *)
Definition MORPH_RECT : Z := 0.
Definition MORPH_CROSS : Z := 1.
Definition MORPH_OPEN : Z := 2.
Definition MORPH_CLOSE : Z := 3.
Definition NORM_MINMAX : Z := 32.
Definition INTER_CUBIC : Z := 2.
Definition COLOR_BGR2GRAY : Z := 6.
Definition COLOR_BGR2XYZ : Z := 32.
Definition COLOR_BGR2HSV : Z := 40.
Definition COLOR_BGR2LUV : Z := 50.
Definition COLOR_BGR2HLS : Z := 52.
Definition THRESH_BINARY : Z := 0.
Definition THRESH_TOZERO : Z := 3.
Definition THRESH_OTSU : Z := 8.

(** A 2x3 affine matrix, row by row. *)
Definition matrix : Type := list (list float).

(** One call into OpenCV, with the arguments as the Python code passes
    them.  Arrays are passed by their contents at the time of the call. *)
Inductive call : Type :=
  | getStructuringElement (shape : Z) (ksize : Z * Z)
  | dilate (src kernel : np.ndarray)
  | morphologyEx (src : np.ndarray) (op : Z) (kernel : np.ndarray) (iterations : Z)
  | normalize (src dst : np.ndarray) (alpha beta : Z) (norm_type : Z)
  | resize (src : np.ndarray) (dsize : option (nat * nat)) (fx fy : float)
      (interpolation : Z)
  | cvtColor (src : np.ndarray) (code : Z)
  | GaussianBlur (src : np.ndarray) (ksize : Z * Z) (sigmaX sigmaY : float)
  | medianBlur (src : np.ndarray) (ksize : Z)
  | threshold (src : np.ndarray) (thresh maxval : Z) (type : Z)
  | Canny (src : np.ndarray) (threshold1 threshold2 : float) (L2gradient : bool)
  | getRotationMatrix2D (center : float * float) (angle : float) (scale : Z)
  | warpAffine (src : np.ndarray) (M : matrix) (dsize : list nat)
  | moments (array : np.ndarray).

(** What a call gives back: [threshold] returns the threshold it used
    together with the image, [moments] a dictionary, [getRotationMatrix2D]
    a matrix, [normalize] the new contents of its [dst] argument, every
    other call a new array. *)
Definition ret (c : call) : Type :=
  match c with
  | threshold _ _ _ _ => (float * np.ndarray)%type
  | getRotationMatrix2D _ _ _ => matrix
  | moments _ => gmap string float
  | _ => np.ndarray
  end.

(** An implementation of the library: every call returns or raises. *)
Definition impl : Type := ∀ c : call, result (ret c).

End cv.

(** ** Heap, call log and the monad of Python computations *)

(** Arrays and [Contour] instances are objects: a Python variable holds a
    reference.  New objects are appended, so a reference is an index. *)
Abbreviation loc := nat (only parsing).
Abbreviation ref := nat (only parsing).

(** The attributes of a [Contour] instance. *)
Record contour_obj : Type := ContourObj {
  points : loc;                    (* the array, shared, not copied *)
  moment : gmap string float;
  area : float
}.

Record state : Type := State {
  heap : list np.ndarray;      (* the arrays alive *)
  objects : list contour_obj;  (* the Contour instances alive *)
  calls : list cv.call         (* the OpenCV calls made so far, oldest first *)
}.

(** A computation runs from a state and ends in a value or an exception;
    what it did to the heap before raising stays done. *)
Definition M (A : Type) : Type := state → result A * state.

Global Instance M_ret : MRet M := λ A a s, (Ok a, s).
Global Instance M_bind : MBind M := λ A B f m s,
  match m s with
  | (Ok a, s') => f a s'
  | (Raise e, s') => (Raise e, s')
  end.

Definition raise {A} (e : exn) : M A := λ s, (Raise e, s).

Definition lift {A} (r : result A) : M A := λ s, (r, s).

(** A reference outside the heap denotes no object; Python cannot produce
    one. *)
Definition dangling : exn := SystemError "dangling reference".

(** Reading through a reference. *)
Definition read (l : loc) : M np.ndarray := λ s,
  match heap s !! l with
  | Some a => (Ok a, s)
  | None => (Raise dangling, s)
  end.

(** In-place update of the array behind a reference. *)
Definition write (l : loc) (a : np.ndarray) : M unit := λ s,
  match heap s !! l with
  | Some _ => (Ok tt, State (<[l := a]> (heap s)) (objects s) (calls s))
  | None => (Raise dangling, s)
  end.

(** A new array object. *)
Definition alloc (a : np.ndarray) : M loc := λ s,
  (Ok (length (heap s)), State (heap s ++ [a]) (objects s) (calls s)).

(** The attributes of an instance, and a new instance. *)
Definition attrs (self : ref) : M contour_obj := λ s,
  match objects s !! self with
  | Some o => (Ok o, s)
  | None => (Raise dangling, s)
  end.

Definition new (o : contour_obj) : M ref := λ s,
  (Ok (length (objects s)), State (heap s) (objects s ++ [o]) (calls s)).

(** A call into OpenCV: it is logged, and the implementation decides the
    outcome. *)
Definition cv_call (opencv : cv.impl) (c : cv.call) : M (cv.ret c) := λ s,
  (opencv c, State (heap s) (objects s) (calls s ++ [c])).

(** [for x in xs: body(x)]. *)
Fixpoint for_each {A} (xs : list A) (body : A → M unit) : M unit :=
  match xs with
  | [] => mret tt
  | x :: xs' => body x;; for_each xs' body
  end.

(** ** Python values of the module *)

Inductive MorphShape : Type := RECT | CROSS.

Definition MorphShape_value (shape : MorphShape) : Z :=
  match shape with
  | RECT => cv.MORPH_RECT
  | CROSS => cv.MORPH_CROSS
  end.

Inductive AngleUnit : Type := RADIANS | DEGREES.

(** Modelled from the spec: [Rect] and [Point] are imported from
    [cvhelper/model.py], which is not among the sources.  The module reads
    [rect.x] and [rect.y] and unpacks a point into its two coordinates; a
    rectangle is in pixel coordinates. *)
Record Rect : Type := { rect_x : Z; rect_y : Z }.
Definition Point : Type := (float * float)%type.

(** A subscript key: an [int], or a tuple of [int]s. *)
Inductive key : Type :=
  | KInt (k : Z)
  | KTuple (ks : list Z).

(** An image argument is [None] or a reference to an array. *)
Definition image_arg : Type := option loc.

(** [np.pi], the double nearest to pi. *)
Definition np_pi : float := 0x1.921fb54442d18p+1%float.

(** [float(z)] for a Python [int], rounded to the nearest double. *)
Definition float_of_int (z : Z) : float :=
  SF2Prim (binary_normalize prec emax z 0 false).

(** The exact quotient of two integers rounded once to the nearest
    double, ties to even: the division of the binary64 format, on the
    integers as mantissas of exponent 0. *)
Definition nearest_double (a b : Z) : float :=
  let of_int z :=
    match z with
    | Z0 => S754_zero false
    | Zpos p => S754_finite false p 0
    | Zneg p => S754_finite true p 0
    end in
  SF2Prim (SFdiv prec emax (of_int a) (of_int b)).

(** The least magnitude that rounds beyond the largest double: half-way
    between the largest double, [2^1024 - 2^971], and [2^1024]. *)
Definition double_overflow : Z := (2 ^ 1024 - 2 ^ 970)%Z.

(** [a / b] on Python [int]s: true division.  The result is the double
    nearest to the exact quotient; a zero divisor raises
    [ZeroDivisionError] and a quotient too large for a double raises
    [OverflowError]. *)
Definition truediv (a b : Z) : result float :=
  if decide (b = 0%Z) then Raise ZeroDivisionError
  else if decide (Z.abs b * double_overflow ≤ Z.abs a)%Z then Raise OverflowError
  else Ok (nearest_double a b).

(** [len(key)] and [key[i]] on a subscript key. *)
Definition int_has_no_len : exn := TypeError "object of type 'int' has no len()".

Definition py_len (k : key) : result nat :=
  match k with
  | KInt _ => Raise int_has_no_len
  | KTuple ks => Ok (length ks)
  end.

Definition py_item (k : key) (i : nat) : result Z :=
  match k with
  | KInt _ => Raise (TypeError "'int' object is not subscriptable")
  | KTuple ks =>
      match ks !! i with
      | Some z => Ok z
      | None => Raise IndexError
      end
  end.

(** ** class Contour *)

Module Contour.

Definition too_many (n : nat) : exn :=
  ValueError ("Too many indices: " +:+ pretty n).

(** [Contour(points, moment)]: the instance exists for the caller once
    [__init__] has returned. *)
Definition __init__ (opencv : cv.impl) (points : loc)
    (moment : option (gmap string float)) : M ref :=
  moment ← match moment with
           | None => a ← read points; cv_call opencv (cv.moments a)
           | Some m => mret m
           end;
  area ← match moment !! "m00" with
         | Some v => mret v
         | None => raise (KeyError "m00")
         end;
  new (ContourObj points moment area).

Definition __len__ (self : ref) : M nat :=
  o ← attrs self;
  a ← read (points o);
  lift (np.len a).

Definition __getitem__ (self : ref) (k : key) : M np.ndarray :=
  match k with
  | KInt i =>
      o ← attrs self;
      a ← read (points o);
      lift (np.getitem a [i; 0%Z])
  | KTuple _ =>
      n ← lift (py_len k);
      if decide (2 < n) then raise (too_many n)
      else
        o ← attrs self;
        k0 ← lift (py_item k 0);
        k1 ← lift (py_item k 1);
        a ← read (points o);
        lift (np.getitem a [k0; 0%Z; k1])
  end.

(** The [int] branch assigns and does not return: control goes on to
    [len(key)]. *)
Definition __setitem__ (self : ref) (k : key) (value : np.array_like) : M unit :=
  match k with
  | KInt i =>
      o ← attrs self;
      a ← read (points o);
      a' ← lift (np.setitem a [i; 0%Z] value);
      write (points o) a'
  | KTuple _ => mret tt
  end;;
  n ← lift (py_len k);
  if decide (2 < n) then raise (too_many n)
  else
    o ← attrs self;
    k0 ← lift (py_item k 0);
    k1 ← lift (py_item k 1);
    a ← read (points o);
    a' ← lift (np.setitem a [k0; 0%Z; k1] value);
    write (points o) a'.

End Contour.

(** ** The module's functions *)

Section image_operations.

Variable opencv : cv.impl.

Definition image_is_empty : exn := ValueError "Image is empty".

Definition _error_if_image_empty (image : image_arg) : M unit :=
  match image with
  | None => raise image_is_empty
  | Some l =>
      a ← read l;
      if decide (np.size a = 0) then raise image_is_empty else mret tt
  end.

(** The array behind an image argument, where the code reads an
    attribute of it or hands it to OpenCV; [None] has no attributes. *)
Definition array_of (image : image_arg) : M np.ndarray :=
  match image with
  | None => raise (AttributeError "'NoneType' object has no attribute")
  | Some l => read l
  end.

Definition dilate (image : image_arg) (kernel_size : Z) (shape : MorphShape)
  : M loc :=
  _error_if_image_empty image;;
  kernel ← cv_call opencv
    (cv.getStructuringElement (MorphShape_value shape) (kernel_size, kernel_size));
  src ← array_of image;
  r ← cv_call opencv (cv.dilate src kernel);
  alloc r.

Definition morph_open (image : image_arg) (size : Z) (iterations : Z) : M loc :=
  _error_if_image_empty image;;
  kernel ← cv_call opencv (cv.getStructuringElement cv.MORPH_RECT (size, size));
  src ← array_of image;
  r ← cv_call opencv (cv.morphologyEx src cv.MORPH_OPEN kernel iterations);
  alloc r.

Definition morph_close (image : image_arg) (size : Z) (iterations : Z) : M loc :=
  _error_if_image_empty image;;
  kernel ← cv_call opencv (cv.getStructuringElement cv.MORPH_RECT (size, size));
  src ← array_of image;
  r ← cv_call opencv (cv.morphologyEx src cv.MORPH_CLOSE kernel iterations);
  alloc r.

Definition normalize (image : image_arg) (min max : Z) : M loc :=
  _error_if_image_empty image;;
  a ← array_of image;
  normalized ← alloc (np.zeros_like a);
  src ← array_of image;
  dst ← read normalized;
  r ← cv_call opencv (cv.normalize src dst max min cv.NORM_MINMAX);
  write normalized r;;
  mret normalized.

Definition resize (image : image_arg) (factor : Z) : M loc :=
  _error_if_image_empty image;;
  fx ← lift (truediv 1 factor);
  fy ← lift (truediv 1 factor);
  src ← array_of image;
  r ← cv_call opencv (cv.resize src None fx fy cv.INTER_CUBIC);
  alloc r.

Definition bgr2gray (image : image_arg) : M loc :=
  _error_if_image_empty image;;
  src ← array_of image;
  r ← cv_call opencv (cv.cvtColor src cv.COLOR_BGR2GRAY);
  alloc r.

Definition bgr2hsv (image : image_arg) : M loc :=
  _error_if_image_empty image;;
  src ← array_of image;
  r ← cv_call opencv (cv.cvtColor src cv.COLOR_BGR2HSV);
  alloc r.

Definition bgr2xyz (image : image_arg) : M loc :=
  _error_if_image_empty image;;
  src ← array_of image;
  r ← cv_call opencv (cv.cvtColor src cv.COLOR_BGR2XYZ);
  alloc r.

Definition bgr2hls (image : image_arg) : M loc :=
  _error_if_image_empty image;;
  src ← array_of image;
  r ← cv_call opencv (cv.cvtColor src cv.COLOR_BGR2HLS);
  alloc r.

Definition bgr2luv (image : image_arg) : M loc :=
  _error_if_image_empty image;;
  src ← array_of image;
  r ← cv_call opencv (cv.cvtColor src cv.COLOR_BGR2LUV);
  alloc r.

Definition blur_gaussian (image : image_arg) (kernel_size : Z)
    (sigma_x sigma_y : option float) : M loc :=
  _error_if_image_empty image;;
  let sigma_x := match sigma_x with None => 0%float | Some s => s end in
  let sigma_y := match sigma_y with None => 0%float | Some s => s end in
  src ← array_of image;
  r ← cv_call opencv
    (cv.GaussianBlur src (kernel_size, kernel_size) sigma_x sigma_y);
  alloc r.

Definition blur_median (image : image_arg) (kernel_size : Z) : M loc :=
  _error_if_image_empty image;;
  src ← array_of image;
  r ← cv_call opencv (cv.medianBlur src kernel_size);
  alloc r.

(** In the four threshold functions [_, img = cv.threshold(...)] keeps
    the second component of what the call returns. *)
Definition threshold_otsu (image : image_arg) (max_value : Z) : M loc :=
  _error_if_image_empty image;;
  src ← array_of image;
  r ← cv_call opencv
    (cv.threshold src 0 max_value (cv.THRESH_BINARY + cv.THRESH_OTSU));
  alloc (snd r).

Definition threshold_binary (image : image_arg) (value max_value : Z) : M loc :=
  _error_if_image_empty image;;
  src ← array_of image;
  r ← cv_call opencv (cv.threshold src value max_value cv.THRESH_BINARY);
  alloc (snd r).

Definition threshold_tozero (image : image_arg) (value max_value : Z) : M loc :=
  _error_if_image_empty image;;
  src ← array_of image;
  r ← cv_call opencv (cv.threshold src value max_value cv.THRESH_TOZERO);
  alloc (snd r).

Definition threshold_otsu_tozero (image : image_arg) (max_value : Z) : M loc :=
  _error_if_image_empty image;;
  src ← array_of image;
  r ← cv_call opencv
    (cv.threshold src 0 max_value (Z.lor cv.THRESH_OTSU cv.THRESH_TOZERO));
  alloc (snd r).

Definition canny (image : image_arg) (low_threshold high_threshold : float)
  : M loc :=
  _error_if_image_empty image;;
  src ← array_of image;
  r ← cv_call opencv (cv.Canny src low_threshold high_threshold true);
  alloc r.

(** One round of the loop of [scale_contour_to_rect]: its two
    assignments, each of which reads a coordinate, subtracts and writes
    the difference back. *)
Definition scale_point (contour : ref) (rect : Rect) (i : nat) : M unit :=
  (x ← Contour.__getitem__ contour (KTuple [Z.of_nat i; 0%Z]);
   x' ← lift (np.sub_scalar x (rect_x rect));
   Contour.__setitem__ contour (KTuple [Z.of_nat i; 0%Z]) (np.array x'));;
  (y ← Contour.__getitem__ contour (KTuple [Z.of_nat i; 1%Z]);
   y' ← lift (np.sub_scalar y (rect_y rect));
   Contour.__setitem__ contour (KTuple [Z.of_nat i; 1%Z]) (np.array y')).

Definition scale_contour_to_rect (contour : ref) (rect : Rect) : M ref :=
  o ← attrs contour;
  contour ← Contour.__init__ opencv (points o) (Some (moment o));
  n ← Contour.__len__ contour;
  for_each (seq 0 n) (scale_point contour rect);;
  mret contour.

Definition dimension_error : exn :=
  ValueError "Image must have 2 or 3 dimensions.".

(** [angle] as handed to [cv.getRotationMatrix2D]. *)
Definition to_degrees (unit : AngleUnit) (angle : float) : float :=
  match unit with
  | RADIANS => (180 / np_pi * angle)%float
  | DEGREES => angle
  end.

(** One round of the loop over channels of [rotate_image]. *)
Definition rotate_channel (image copy : loc) (rotation_matrix : cv.matrix)
    (shape : list nat) (i : nat) : M unit :=
  img ← read image;
  channel ← lift (np.get_last img i);
  r ← cv_call opencv (cv.warpAffine channel rotation_matrix shape);
  c ← read copy;
  c' ← lift (np.set_last c i r);
  write copy c'.

Definition rotate_image (image : image_arg) (center : Point) (angle : float)
    (scale : Z) (unit : AngleUnit) : M loc :=
  let angle := to_degrees unit angle in
  rotation_matrix ← cv_call opencv (cv.getRotationMatrix2D center angle scale);
  match image with
  | None => raise (AttributeError "'NoneType' object has no attribute")
  | Some image =>
      a ← read image;
      if decide (np.ndim a = 2) then
        r ← cv_call opencv
          (cv.warpAffine a rotation_matrix (reverse (np.shape a)));
        alloc r
      else if decide (np.ndim a = 3) then
        copy ← alloc (np.zeros_like a);
        let shape := reverse (np.init_shape a) in
        c ← read copy;
        n ← match np.last_extent c with
            | Some n => mret n
            | None => raise IndexError
            end;
        for_each (seq 0 n) (rotate_channel image copy rotation_matrix shape);;
        mret copy
      else raise (ValueError "Image must have 2 or 3 dimensions.")
  end.

End image_operations.

(** ** The exported functions as one family *)

(** The functions that take an image, each with its other arguments. *)
Inductive image_op : Type :=
  | Dilate (kernel_size : Z) (shape : MorphShape)
  | MorphOpen (size iterations : Z)
  | MorphClose (size iterations : Z)
  | Normalize (min max : Z)
  | Resize (factor : Z)
  | Bgr2gray
  | Bgr2hsv
  | Bgr2xyz
  | Bgr2hls
  | Bgr2luv
  | BlurGaussian (kernel_size : Z) (sigma_x sigma_y : option float)
  | BlurMedian (kernel_size : Z)
  | ThresholdOtsu (max_value : Z)
  | ThresholdBinary (value max_value : Z)
  | ThresholdTozero (value max_value : Z)
  | ThresholdOtsuTozero (max_value : Z)
  | Canny (low_threshold high_threshold : float)
  | RotateImage (center : Point) (angle : float) (scale : Z) (unit : AngleUnit).

Definition apply_image_op (opencv : cv.impl) (f : image_op) (image : image_arg)
  : M loc :=
  match f with
  | Dilate k sh => dilate opencv image k sh
  | MorphOpen sz it => morph_open opencv image sz it
  | MorphClose sz it => morph_close opencv image sz it
  | Normalize lo hi => normalize opencv image lo hi
  | Resize factor => resize opencv image factor
  | Bgr2gray => bgr2gray opencv image
  | Bgr2hsv => bgr2hsv opencv image
  | Bgr2xyz => bgr2xyz opencv image
  | Bgr2hls => bgr2hls opencv image
  | Bgr2luv => bgr2luv opencv image
  | BlurGaussian k sx sy => blur_gaussian opencv image k sx sy
  | BlurMedian k => blur_median opencv image k
  | ThresholdOtsu mv => threshold_otsu opencv image mv
  | ThresholdBinary v mv => threshold_binary opencv image v mv
  | ThresholdTozero v mv => threshold_tozero opencv image v mv
  | ThresholdOtsuTozero mv => threshold_otsu_tozero opencv image mv
  | Canny lo hi => canny opencv image lo hi
  | RotateImage c a sc u => rotate_image opencv image c a sc u
  end.

Definition is_rotate_image (f : image_op) : bool :=
  match f with
  | RotateImage _ _ _ _ => true
  | _ => false
  end.

(** An image argument is empty in a state when it is [None] or refers to
    an array of size 0. *)
Definition empty_image (s : state) (image : image_arg) : Prop :=
  match image with
  | None => True
  | Some l => ∃ a, heap s !! l = Some a ∧ np.size a = 0
  end.

(** A call of an exported function, and what it returns. *)
Inductive operation : Type :=
  | ImageOp (f : image_op) (image : image_arg)
  | ScaleContourToRect (contour : ref) (rect : Rect).

Inductive value : Type :=
  | VImage (l : loc)
  | VContour (c : ref).

Definition run (opencv : cv.impl) (o : operation) : M value :=
  match o with
  | ImageOp f image => l ← apply_image_op opencv f image; mret (VImage l)
  | ScaleContourToRect c rect =>
      c' ← scale_contour_to_rect opencv c rect; mret (VContour c')
  end.

(** Arguments and results by value: what a reference refers to in a state,
    instead of the reference. *)
Definition image_view (s : state) (image : image_arg) : option (option np.ndarray) :=
  (λ l, heap s !! l) <$> image.

Definition contour_view (s : state) (c : ref)
  : option (option np.ndarray * gmap string float * float) :=
  (λ o, (heap s !! points o, moment o, area o)) <$> objects s !! c.

Inductive operation_view : Type :=
  | ImageOpV (f : image_op) (image : option (option np.ndarray))
  | ScaleContourToRectV
      (contour : option (option np.ndarray * gmap string float * float))
      (rect : Rect).

Definition view_operation (s : state) (o : operation) : operation_view :=
  match o with
  | ImageOp f image => ImageOpV f (image_view s image)
  | ScaleContourToRect c rect => ScaleContourToRectV (contour_view s c) rect
  end.

Inductive value_view : Type :=
  | VImageV (a : option np.ndarray)
  | VContourV (c : option (option np.ndarray * gmap string float * float)).

Definition view_value (s : state) (v : value) : value_view :=
  match v with
  | VImage l => VImageV (heap s !! l)
  | VContour c => VContourV (contour_view s c)
  end.

(** What a caller can tell from a finished call: the exception, or the
    returned object by value. *)
Definition observe (r : result value * state) : result value_view :=
  match r with
  | (Ok v, s) => Ok (view_value s v)
  | (Raise e, _) => Raise e
  end.

(** ** A small OpenCV for examples *)

(** An implementation in which every filter returns its input: structuring
    elements are filled with ones, a warp returns its source when the
    requested size is the size of the source and zeros of the requested
    size otherwise, [normalize] fills [dst] with the samples of [src], the
    rotation matrix is the identity and every moment is reported as the
    single entry [m00 = len(array)]. *)
Definition identity_opencv : cv.impl := λ c,
  match c with
  | cv.getStructuringElement _ (w, h) =>
      if decide (0 < w ∧ 0 < h)%Z then
        Ok (np.NdArray np.uint8 [Z.to_nat h; Z.to_nat w]
              (replicate (Z.to_nat h * Z.to_nat w) 1%Z))
      else Raise (cv_error "ksize")
  | cv.dilate src _ => Ok src
  | cv.morphologyEx src _ _ _ => Ok src
  | cv.normalize src dst _ _ _ =>
      Ok (np.NdArray (np.dtype dst) (np.shape dst) (np.data src))
  | cv.resize src _ _ _ _ => Ok src
  | cv.cvtColor src _ => Ok src
  | cv.GaussianBlur src _ _ _ => Ok src
  | cv.medianBlur src _ => Ok src
  | cv.threshold src _ _ _ => Ok (0%float, src)
  | cv.Canny src _ _ _ => Ok src
  | cv.getRotationMatrix2D _ _ _ =>
      Ok [[1%float; 0%float; 0%float]; [0%float; 1%float; 0%float]]
  | cv.warpAffine src _ dsize =>
      if decide (np.shape src = reverse dsize) then Ok src
      else Ok (np.NdArray (np.dtype src) (reverse dsize)
                 (replicate (np.numel dsize) 0%Z))
  | cv.moments a =>
      Ok {["m00" := float_of_int (Z.of_nat (match np.shape a with d :: _ => d | [] => 0 end))]}
  end.

(** A grey image of two rows and three columns, a colour image of two
    rows, two columns and three channels, an image without samples, and
    the points of a triangle as [cv.findContours] lays them out. *)
Definition grey_2x3 : np.ndarray :=
  np.NdArray np.uint8 [2; 3] [10; 20; 30; 40; 50; 60]%Z.
Definition colour_2x2 : np.ndarray :=
  np.NdArray np.uint8 [2; 2; 3] [1; 2; 3; 4; 5; 6; 7; 8; 9; 10; 11; 12]%Z.
Definition no_samples : np.ndarray := np.NdArray np.uint8 [0; 3] [].
Definition triangle : np.ndarray :=
  np.NdArray np.int32 [3; 1; 2] [5; 7; 9; 7; 5; 11]%Z.

(** A state with these four arrays and one [Contour] on the triangle. *)
Definition example_state : state :=
  State [grey_2x3; colour_2x2; no_samples; triangle]
        [ContourObj 3 {["m00" := 8%float]} 8%float]
        [].

(** The call log of [s'] continues the call log of [s]. *)
Definition log_extends (s s' : state) : Prop :=
  ∃ more, calls s' = calls s ++ more.

(** A computation that only ever adds to the call log. *)
Definition log_monotone {A} (m : M A) : Prop :=
  ∀ s, log_extends s (m s).2.

(** What a function does that ends in one OpenCV call [c] and returns its
    result [pick r] as a new array: the call is logged, an exception of
    OpenCV is passed on, and otherwise the result is the new object. *)
Definition returns_call (opencv : cv.impl) (c : cv.call)
    (pick : cv.ret c → np.ndarray) (s : state) : result loc * state :=
  match opencv c with
  | Raise e => (Raise e, State (heap s) (objects s) (calls s ++ [c]))
  | Ok r =>
      (Ok (length (heap s)),
       State (heap s ++ [pick r]) (objects s) (calls s ++ [c]))
  end.

(** ** Translating the points of a contour *)

(** The buffer of an [(n, 1, 2)] array of points of type [t], with the
    coordinates at positions [lo <= p < hi] moved by [(-rx, -ry)] in that
    type: even positions hold the [x], odd positions the [y]. *)
Definition shifted (t : np.integer) (rx ry : Z) (lo hi : nat) (d : list Z)
  : list Z :=
  imap (λ p v, if decide (lo ≤ p < hi)
               then np.wrap t (if Nat.even p then v - rx else v - ry)%Z
               else v) d.

(** ** Range normalisation *)


(** The samples [l] mapped linearly so that the smallest becomes [lo] and
    the largest [hi], rounded to the nearest integer. *)
Definition rescale (lo hi : Z) (l : list Z) : list Z :=
  let smin := foldr Z.min (default 0%Z (head l)) l in
  let smax := foldr Z.max (default 0%Z (head l)) l in
  (λ v, if decide (smin = smax) then lo
        else (lo + (2 * (v - smin) * (hi - lo) + (smax - smin))
                     `div` (2 * (smax - smin)))%Z) <$> l.


(** ** Two runs side by side *)

(** Two finished computations agree when both raised the same exception,
    or both returned the same value in states related by [R]. *)
Definition agree {A} (R : state → state → Prop)
    (r1 r2 : result A * state) : Prop :=
  match r1, r2 with
  | (Ok a1, s1), (Ok a2, s2) => a1 = a2 ∧ R s1 s2
  | (Raise e1, _), (Raise e2, _) => e1 = e2
  | _, _ => False
  end.

(** The array behind [l1] in the first state has the contents of the array
    behind [l2] in the second. *)
Definition same_array (l1 l2 : loc) (s1 s2 : state) : Prop :=
  ∃ a, heap s1 !! l1 = Some a ∧ heap s2 !! l2 = Some a.

(** The instances [c1] and [c2] exist, with the same moments and area, and
    hold arrays of equal contents. *)
Definition same_points (c1 c2 : ref) (s1 s2 : state) : Prop :=
  ∃ o1 o2, objects s1 !! c1 = Some o1 ∧ objects s2 !! c2 = Some o2
           ∧ moment o1 = moment o2 ∧ area o1 = area o2
           ∧ same_array (points o1) (points o2) s1 s2.

(** The invariant of the loop of [rotate_image]: the image and the copy
    are different objects, of equal contents in the two runs. *)
Definition same_image_and_copy (l1 cp1 l2 cp2 : loc) (s1 s2 : state) : Prop :=
  l1 ≠ cp1 ∧ l2 ≠ cp2 ∧ same_array l1 l2 s1 s2 ∧ same_array cp1 cp2 s1 s2.

(** ** What a call leaves alone *)

(** The outcome [r] of a call started in [s] kept what was there: the
    arrays of [s] are the first arrays of the final state, unchanged, the
    [Contour] objects are those of [s], and a returned reference is to the
    first array made during the call. *)
Definition keeps_arrays (s : state) (r : result loc * state) : Prop :=
  (∃ new, heap r.2 = heap s ++ new)
  ∧ objects r.2 = objects s
  ∧ ∀ l, r.1 = Ok l → l = length (heap s) ∧ length (heap s) < length (heap r.2).

(** The state during the loop of [rotate_image]: the arrays [h] that were
    there, the copy after them, and the objects [objs]. *)
Definition arrays_then_copy (h : list np.ndarray) (objs : list contour_obj)
    (t : state) : Prop :=
  (∃ c, heap t = h ++ [c]) ∧ objects t = objs.

(** The image in what a call returned, when it returned one. *)
Definition image_of (c : cv.call) : cv.ret c → option np.ndarray :=
  match c with
  | cv.threshold _ _ _ _ => λ r, Some (snd r)
  | cv.getRotationMatrix2D _ _ _ => λ _, None
  | cv.moments _ => λ _, None
  | _ => λ r, Some r
  end.

(** What [None.ndim] raises. *)
Definition none_has_no_attribute : exn :=
  AttributeError "'NoneType' object has no attribute".

(** * Properties *)

(** ** NumPy by example *)

Example broadcast_scalar :
  np.broadcast_to (np.NdArray np.uint8 [] [7%Z]) [2; 2] = Some [7; 7; 7; 7]%Z.
Proof. reflexivity. Qed.

Example broadcast_row :
  np.broadcast_to (np.NdArray np.uint8 [2] [1; 2]%Z) [2; 2]
    = Some [1; 2; 1; 2]%Z.
Proof. reflexivity. Qed.

Example broadcast_column :
  np.broadcast_to (np.NdArray np.uint8 [2; 1] [1; 2]%Z) [2; 2]
    = Some [1; 1; 2; 2]%Z.
Proof. reflexivity. Qed.

Example broadcast_leading_ones :
  np.broadcast_to (np.NdArray np.uint8 [1; 1; 2] [1; 2]%Z) [2]
    = Some [1; 2]%Z.
Proof. reflexivity. Qed.

Example broadcast_mismatch :
  np.broadcast_to (np.NdArray np.uint8 [3] [1; 2; 3]%Z) [2; 2] = None.
Proof. reflexivity. Qed.

Example integer_ranges :
  (np.min_value np.int32, np.max_value np.int32) = (-2147483648, 2147483647)%Z
  ∧ (np.min_value np.uint8, np.max_value np.uint8) = (0, 255)%Z.
Proof. split; reflexivity. Qed.

Example wrap_around :
  np.wrap np.int32 (-2147483648 - 1) = 2147483647%Z
  ∧ np.wrap np.int32 (2147483647 + 1) = (-2147483648)%Z
  ∧ np.wrap np.uint8 (0 - 1) = 255%Z
  ∧ np.wrap np.int32 (5 - 7) = (-2)%Z.
Proof. repeat split; reflexivity. Qed.

Example sub_scalar_int32 :
  np.sub_scalar (np.NdArray np.int32 [] [-2147483648]%Z) 1
    = Ok (np.NdArray np.int32 [] [2147483647]%Z)
  ∧ np.sub_scalar (np.NdArray np.int32 [] [5]%Z) 2147483648
    = Raise OverflowError.
Proof. split; reflexivity. Qed.

Example getitem_negative :
  np.getitem triangle [-1; 0]%Z = Ok (np.NdArray np.int32 [2] [5; 11]%Z).
Proof. reflexivity. Qed.

Example getitem_out_of_range : np.getitem triangle [3; 0]%Z = Raise IndexError.
Proof. reflexivity. Qed.

Example getitem_too_many_indices :
  np.getitem grey_2x3 [0; 0; 0]%Z = Raise IndexError.
Proof. reflexivity. Qed.

Example setitem_row :
  np.setitem grey_2x3 [1%Z] (np.py_int 0) =
    Ok (np.NdArray np.uint8 [2; 3] [10; 20; 30; 0; 0; 0]%Z).
Proof. reflexivity. Qed.

Example setitem_point :
  np.setitem triangle [1; 0]%Z (np.py_tuple [0; 0]%Z) =
    Ok (np.NdArray np.int32 [3; 1; 2] [5; 7; 0; 0; 5; 11]%Z).
Proof. reflexivity. Qed.

(** A single coordinate takes a value of the type, and a scalar only. *)
Example setitem_coordinate :
  np.setitem triangle [1; 0; 0]%Z (np.py_int 2147483647) =
    Ok (np.NdArray np.int32 [3; 1; 2] [5; 7; 2147483647; 7; 5; 11]%Z)
  ∧ np.setitem triangle [1; 0; 0]%Z (np.py_int 2147483648)
    = Raise OverflowError
  ∧ np.setitem triangle [1; 0; 0]%Z (np.py_tuple [4%Z])
    = Raise np.sequence_error
  ∧ np.setitem triangle [1; 0; 0]%Z (np.array (np.NdArray np.int32 [] [4%Z]))
    = Ok (np.NdArray np.int32 [3; 1; 2] [5; 7; 4; 7; 5; 11]%Z).
Proof. repeat split; reflexivity. Qed.

Example get_last_green :
  np.get_last colour_2x2 1 = Ok (np.NdArray np.uint8 [2; 2] [2; 5; 8; 11]%Z).
Proof. reflexivity. Qed.

Example set_last_green :
  np.set_last colour_2x2 1 (np.NdArray np.uint8 [2; 2] [0; 0; 0; 0]%Z) =
    Ok (np.NdArray np.uint8 [2; 2; 3]
          [1; 0; 3; 4; 0; 6; 7; 0; 9; 10; 0; 12]%Z).
Proof. reflexivity. Qed.

Example to_degrees_half_turn :
  to_degrees RADIANS np_pi = 180%float ∧ to_degrees DEGREES 90 = 90%float.
Proof. split; reflexivity. Qed.

Example truediv_two :
  truediv 1 2 = Ok 0.5%float ∧ truediv 1 0 = Raise ZeroDivisionError.
Proof. split; reflexivity. Qed.

(** The quotient is rounded once: [1 / (2**53 + 1)] is the double below
    [2**-53], although [2**53 + 1] itself is no double. *)
Example truediv_rounds_once :
  truediv 1 (2 ^ 53 + 1) = Ok 0x1.fffffffffffffp-54%float
  ∧ truediv 1 3 = Ok (1 / 3)%float
  ∧ truediv (10 ^ 400) (3 * 10 ^ 399) = Ok (10 / 3)%float
  ∧ truediv 1 (2 ^ 1075) = Ok 0%float
  ∧ truediv 3 (2 ^ 1075) = Ok 0x1p-1073%float.
Proof. repeat split; vm_compute; reflexivity. Qed.

Example truediv_overflow :
  truediv (2 ^ 1024) 1 = Raise OverflowError
  ∧ truediv (2 ^ 1024 - 2 ^ 970) 1 = Raise OverflowError
  ∧ truediv (2 ^ 1024 - 2 ^ 970 - 1) 1 = Ok 0x1.fffffffffffffp+1023%float.
Proof. repeat split; vm_compute; reflexivity. Qed.

Example rescale_grey :
  rescale 0 255 (np.data grey_2x3) = [0; 51; 102; 153; 204; 255]%Z.
Proof. reflexivity. Qed.

(** An image of two rows, two columns and no channel: [rotate_image] makes
    no call of [cv.warpAffine] and returns the empty copy. *)
Example rotate_image_no_channel :
  rotate_image identity_opencv (Some 0) (0%float, 0%float) 0 1 DEGREES
    (State [np.NdArray np.uint8 [2; 2; 0] []] [] []) =
    (Ok 1,
     State [np.NdArray np.uint8 [2; 2; 0] []; np.NdArray np.uint8 [2; 2; 0] []] []
       [cv.getRotationMatrix2D (0%float, 0%float) 0 1]).
Proof. reflexivity. Qed.

(** ** The monad *)

Ltac run_step :=
  unfold mbind, M_bind, mret, M_ret, raise, lift, read, write, alloc, attrs,
    new, cv_call; simpl.

Lemma bind_run {A B} (m : M A) (f : A → M B) (s : state) :
  (m ≫= f) s =
    match m s with
    | (Ok a, s') => f a s'
    | (Raise e, s') => (Raise e, s')
    end.
Proof. reflexivity. Qed.

Lemma bind_ok {A B} (m : M A) (f : A → M B) s a s' :
  m s = (Ok a, s') → (m ≫= f) s = f a s'.
Proof. intros H. rewrite bind_run, H. reflexivity. Qed.

Lemma bind_raise {A B} (m : M A) (f : A → M B) s e s' :
  m s = (Raise e, s') → (m ≫= f) s = (Raise e, s').
Proof. intros H. rewrite bind_run, H. reflexivity. Qed.

Lemma read_ok s l a : heap s !! l = Some a → read l s = (Ok a, s).
Proof. intros H. unfold read. rewrite H. reflexivity. Qed.

Lemma write_ok s l a b :
  heap s !! l = Some a →
  write l b s = (Ok tt, State (<[l := b]> (heap s)) (objects s) (calls s)).
Proof. intros H. unfold write. rewrite H. reflexivity. Qed.

Lemma attrs_ok s c o : objects s !! c = Some o → attrs c s = (Ok o, s).
Proof. intros H. unfold attrs. rewrite H. reflexivity. Qed.

(** ** The emptiness check *)

Lemma error_if_image_empty_raises s image :
  empty_image s image →
  _error_if_image_empty image s = (Raise image_is_empty, s).
Proof.
  destruct image as [l|]; simpl; [|reflexivity].
  intros (a & Ha & Hsz). rewrite (bind_ok _ _ _ _ _ (read_ok _ _ _ Ha)).
  rewrite decide_True by done. reflexivity.
Qed.

Lemma error_if_image_empty_passes s l a :
  heap s !! l = Some a → np.size a ≠ 0 →
  _error_if_image_empty (Some l) s = (Ok tt, s).
Proof.
  intros Ha Hsz. simpl. rewrite (bind_ok _ _ _ _ _ (read_ok _ _ _ Ha)).
  rewrite decide_False by done. reflexivity.
Qed.

(** ** The call log only grows *)

Lemma log_extends_refl s : log_extends s s.
Proof. exists []. by rewrite app_nil_r. Qed.

Lemma log_extends_trans s1 s2 s3 :
  log_extends s1 s2 → log_extends s2 s3 → log_extends s1 s3.
Proof.
  intros [m1 H1] [m2 H2]. exists (m1 ++ m2). by rewrite H2, H1, app_assoc.
Qed.

Lemma log_monotone_bind {A B} (m : M A) (f : A → M B) :
  log_monotone m → (∀ a, log_monotone (f a)) → log_monotone (m ≫= f).
Proof.
  intros Hm Hf s. rewrite bind_run. specialize (Hm s).
  destruct (m s) as [[a|e] s']; simpl in *; [|done].
  eapply log_extends_trans; [done|apply Hf].
Qed.

Lemma log_monotone_ret {A} (a : A) : log_monotone (mret a).
Proof. intros s. apply log_extends_refl. Qed.

Lemma log_monotone_raise {A} e : log_monotone (@raise A e).
Proof. intros s. apply log_extends_refl. Qed.

Lemma log_monotone_lift {A} (r : result A) : log_monotone (lift r).
Proof. intros s. apply log_extends_refl. Qed.

Lemma log_monotone_read l : log_monotone (read l).
Proof. intros s. unfold read. destruct (heap s !! l); apply log_extends_refl. Qed.

Lemma log_monotone_write l a : log_monotone (write l a).
Proof.
  intros s. unfold write. destruct (heap s !! l); [|apply log_extends_refl].
  exists []. simpl. by rewrite app_nil_r.
Qed.

Lemma log_monotone_alloc a : log_monotone (alloc a).
Proof. intros s. exists []. simpl. by rewrite app_nil_r. Qed.

Lemma log_monotone_call opencv c : log_monotone (cv_call opencv c).
Proof. intros s. by exists [c]. Qed.

Lemma log_monotone_for_each {A} (xs : list A) body :
  (∀ x, log_monotone (body x)) → log_monotone (for_each xs body).
Proof.
  intros Hb. induction xs as [|x xs IH]; simpl.
  - apply log_monotone_ret.
  - apply log_monotone_bind; [apply Hb|done].
Qed.

Create HintDb log discriminated.
#[local] Hint Resolve log_monotone_ret log_monotone_raise log_monotone_lift
  log_monotone_read log_monotone_write log_monotone_alloc log_monotone_call
  : log.

Ltac log_monotone :=
  repeat first
    [ apply log_monotone_bind; [|intros ?]
    | apply log_monotone_for_each; intros ?
    | progress eauto with log
    | match goal with
      | |- log_monotone (cv_call ?o ?c) => exact (log_monotone_call o c)
      end
    | match goal with |- log_monotone (match ?x with _ => _ end) => destruct x end
    | match goal with |- log_monotone (if ?x then _ else _) => destruct x end ].

(** Whatever the image, [rotate_image] starts by asking OpenCV for the
    rotation matrix. *)
Lemma rotate_image_calls_first opencv image center angle scale unit s :
  ∃ more,
    calls (rotate_image opencv image center angle scale unit s).2 =
      calls s ++ cv.getRotationMatrix2D center (to_degrees unit angle) scale :: more.
Proof.
  unfold rotate_image. rewrite bind_run. unfold cv_call at 1.
  destruct (opencv _) as [m|e]; simpl; [|by exists []].
  match goal with |- ∃ _, calls (?k ?s0).2 = _ =>
    assert (log_monotone k) as Hk end.
  { destruct image; log_monotone. }
  destruct (Hk (State (heap s) (objects s)
    (calls s ++ [cv.getRotationMatrix2D center (to_degrees unit angle) scale])))
    as [more Hmore].
  exists more. rewrite Hmore. simpl. by rewrite <- app_assoc.
Qed.

(** ** C8: empty images *)

(** C8.  Each function that takes an image, [rotate_image] excepted,
    raises [ValueError("Image is empty")] when the image is [None] or has
    size 0, and does so before anything else: the state, and with it the
    log of OpenCV calls, is the one it started from.  [rotate_image] has no
    such check: on the same images its first step is the call of
    [cv.getRotationMatrix2D]. *)
Theorem empty_image_is_rejected opencv (f : image_op) image s :
  empty_image s image →
  (is_rotate_image f = false →
     apply_image_op opencv f image s = (Raise image_is_empty, s))
  ∧ (∀ center angle scale unit, ∃ more,
       calls (rotate_image opencv image center angle scale unit s).2 =
         calls s ++
           cv.getRotationMatrix2D center (to_degrees unit angle) scale :: more).
Proof.
  intros He. split.
  - pose proof (error_if_image_empty_raises s image He) as Hr.
    destruct f; simpl; intros Hf; try discriminate;
      unfold dilate, morph_open, morph_close, normalize, resize, bgr2gray,
        bgr2hsv, bgr2xyz, bgr2hls, bgr2luv, blur_gaussian, blur_median,
        threshold_otsu, threshold_binary, threshold_tozero,
        threshold_otsu_tozero, canny;
      apply bind_raise; exact Hr.
  - intros. apply rotate_image_calls_first.
Qed.

Lemma empty_image_is_rejected_witness :
  empty_image example_state (Some 2)
  ∧ apply_image_op identity_opencv (Canny 50 150) (Some 2) example_state
      = (Raise image_is_empty, example_state)
  ∧ ∃ more,
      calls (rotate_image identity_opencv (Some 2) (1%float, 1%float) 90 1
               DEGREES example_state).2 =
        cv.getRotationMatrix2D (1%float, 1%float) 90 1 :: more.
Proof.
  assert (empty_image example_state (Some 2)) as He.
  { exists no_samples. split; reflexivity. }
  split; [exact He|].
  destruct (empty_image_is_rejected identity_opencv (Canny 50 150) (Some 2)
              example_state He) as [Hcheck Hrot].
  split; [apply Hcheck; reflexivity|].
  exact (Hrot (1%float, 1%float) 90%float 1%Z DEGREES).
Defined.

(** ** C3 and C4: plain forwarding *)

(** C3.  On an image that is not empty, [dilate] asks OpenCV for the
    structuring element of the given shape ([MORPH_RECT], the value 0, for
    [MorphShape.RECT] and [MORPH_CROSS], the value 1, for
    [MorphShape.CROSS]) and of size [(k, k)], hands the image and that
    element to [cv.dilate], and returns what [cv.dilate] returns, as it is.
    An exception of either call is passed on. *)
Theorem dilate_forwards opencv s l a k (shape : MorphShape) :
  heap s !! l = Some a → np.size a ≠ 0 →
  let element :=
    cv.getStructuringElement
      (match shape with RECT => cv.MORPH_RECT | CROSS => cv.MORPH_CROSS end)
      (k, k) in
  dilate opencv (Some l) k shape s =
    match opencv element with
    | Raise e => (Raise e, State (heap s) (objects s) (calls s ++ [element]))
    | Ok kernel =>
        returns_call opencv (cv.dilate a kernel) id
          (State (heap s) (objects s) (calls s ++ [element]))
    end
  ∧ cv.MORPH_RECT = 0%Z ∧ cv.MORPH_CROSS = 1%Z.
Proof.
  intros Ha Hsz element. split; [|split; reflexivity]. unfold dilate.
  rewrite (bind_ok _ _ _ _ _ (error_if_image_empty_passes _ _ _ Ha Hsz)).
  destruct shape; cbn [MorphShape_value] in *;
    rewrite bind_run; unfold cv_call at 1; fold element;
    (destruct (opencv element) as [kernel|e]; [|reflexivity]);
    rewrite bind_run; simpl; unfold read; simpl; rewrite Ha;
    unfold returns_call; rewrite bind_run; unfold cv_call; simpl;
    destruct (opencv (cv.dilate a kernel)); reflexivity.
Qed.

Lemma dilate_forwards_witness :
  dilate identity_opencv (Some 0) 3 CROSS example_state =
    (Ok 4,
     State [grey_2x3; colour_2x2; no_samples; triangle; grey_2x3]
       (objects example_state)
       [cv.getStructuringElement 1 (3, 3)%Z;
        cv.dilate grey_2x3 (np.NdArray np.uint8 [3; 3] (replicate 9 1%Z))])
  ∧ dilate identity_opencv (Some 0) 3 RECT example_state =
    (Ok 4,
     State [grey_2x3; colour_2x2; no_samples; triangle; grey_2x3]
       (objects example_state)
       [cv.getStructuringElement 0 (3, 3)%Z;
        cv.dilate grey_2x3 (np.NdArray np.uint8 [3; 3] (replicate 9 1%Z))]).
Proof.
  split.
  - exact (proj1 (dilate_forwards identity_opencv example_state 0 grey_2x3 3
                    CROSS eq_refl (λ H : np.size grey_2x3 = 0, O_S 5 (eq_sym H)))).
  - exact (proj1 (dilate_forwards identity_opencv example_state 0 grey_2x3 3
                    RECT eq_refl (λ H : np.size grey_2x3 = 0, O_S 5 (eq_sym H)))).
Defined.

(** C4.  On an image that is not empty, [threshold_otsu] calls
    [cv.threshold] on the image with threshold 0, [max_value] and the flag
    [THRESH_BINARY + THRESH_OTSU] (the value 8), and returns the image that
    [cv.threshold] returns, the second component of its result, as it is.
    An exception of the call is passed on. *)
Theorem threshold_otsu_forwards opencv s l a max_value :
  heap s !! l = Some a → np.size a ≠ 0 →
  threshold_otsu opencv (Some l) max_value s =
    returns_call opencv
      (cv.threshold a 0 max_value (cv.THRESH_BINARY + cv.THRESH_OTSU)) snd s
  ∧ (cv.THRESH_BINARY + cv.THRESH_OTSU = 8)%Z.
Proof.
  intros Ha Hsz. split; [|reflexivity]. unfold threshold_otsu.
  rewrite (bind_ok _ _ _ _ _ (error_if_image_empty_passes _ _ _ Ha Hsz)).
  rewrite bind_run. simpl. unfold read. rewrite Ha.
  unfold returns_call. rewrite bind_run. unfold cv_call.
  destruct (opencv _); reflexivity.
Qed.

Lemma threshold_otsu_forwards_witness :
  threshold_otsu identity_opencv (Some 1) 255 example_state =
    (Ok 4,
     State [grey_2x3; colour_2x2; no_samples; triangle; colour_2x2]
       (objects example_state)
       [cv.threshold colour_2x2 0 255 8]).
Proof.
  exact (proj1 (threshold_otsu_forwards identity_opencv example_state 1
                  colour_2x2 255 eq_refl
                  (λ H : np.size colour_2x2 = 0, O_S 11 (eq_sym H)))).
Defined.

(** ** Integer types *)

Lemma modulus_pos t : (0 < 2 ^ np.bits t)%Z.
Proof. by destruct t. Qed.

Lemma range_width t : (np.max_value t - np.min_value t = 2 ^ np.bits t - 1)%Z.
Proof. by destruct t. Qed.

Lemma zero_in_range t : np.in_range t 0.
Proof. by destruct t. Qed.

(** A value of the type is left as it is. *)
Lemma wrap_in_range t v : np.in_range t v → np.wrap t v = v.
Proof.
  unfold np.in_range, np.wrap. intros Hv.
  pose proof (range_width t). rewrite Z.mod_small; lia.
Qed.

Lemma wrap_range t v : np.in_range t (np.wrap t v).
Proof.
  unfold np.in_range, np.wrap.
  pose proof (range_width t).
  pose proof (Z.mod_pos_bound (v - np.min_value t) _ (modulus_pos t)). lia.
Qed.

(** Two subtractions in the type are the subtraction of the sum. *)
Lemma wrap_sub_wrap t v x y :
  np.wrap t (np.wrap t (v - x) - y) = np.wrap t (v - (x + y)).
Proof.
  unfold np.wrap. f_equal.
  replace ((v - x - np.min_value t) `mod` 2 ^ np.bits t + np.min_value t - y
           - np.min_value t)%Z
    with ((v - x - np.min_value t) `mod` 2 ^ np.bits t - y)%Z by lia.
  rewrite Zminus_mod_idemp_l. f_equal. lia.
Qed.

(** Subtracting a value of the type changes the sample, unless that value
    is 0. *)
Lemma wrap_sub_ne t v x :
  np.in_range t x → x ≠ 0%Z → np.wrap t (v - x) ≠ v.
Proof.
  unfold np.in_range, np.wrap. intros Hx Hne Heq.
  pose proof (range_width t) as Hw. pose proof (modulus_pos t) as Hm.
  pose proof (Z.div_mod (v - x - np.min_value t) _ (Z.neq_sym _ _ (Z.lt_neq _ _ Hm)))
    as Hdiv.
  assert (np.min_value t ≤ 0 ≤ np.max_value t)%Z as H0 by apply zero_in_range.
  set (q := ((v - x - np.min_value t) `div` 2 ^ np.bits t)%Z) in *.
  set (m := (2 ^ np.bits t)%Z) in *.
  assert (x = - (m * q))%Z as Hxq by lia.
  assert (q = 0)%Z by nia. lia.
Qed.

Lemma astype_same a : np.typed a → np.astype (np.dtype a) a = a.
Proof.
  destruct a as [t sh d]. unfold np.typed, np.astype. simpl. intros Hd.
  f_equal. rewrite <- (list_fmap_id d) at 2. apply Forall_fmap_ext_1.
  eapply Forall_impl; [done|]. intros v. apply wrap_in_range.
Qed.

(** ** NumPy indexing *)

Lemma norm_index_lt d i k : np.norm_index d i = Some k → k < d.
Proof.
  unfold np.norm_index. repeat case_decide; intros; simplify_eq; lia.
Qed.

Lemma norm_index_of_nat d (i : nat) :
  i < d → np.norm_index d (Z.of_nat i) = Some i.
Proof.
  intros. unfold np.norm_index. rewrite decide_True by lia.
  by rewrite Nat2Z.id.
Qed.

Lemma offset_bound idx : ∀ sh o rest,
  np.offset sh idx = Some (o, rest) → o + np.numel rest ≤ np.numel sh.
Proof.
  induction idx as [|i idx IH]; intros sh o rest.
  - simpl; intros; simplify_eq; lia.
  - destruct sh as [|d sh']; simpl; [done|].
    destruct (np.norm_index d i) as [k|] eqn:Hk; [|done].
    destruct (np.offset sh' idx) as [[o' rest']|] eqn:Ho; [|done].
    intros; simplify_eq. apply norm_index_lt in Hk. apply IH in Ho.
    change (np.numel (d :: sh')) with (d * np.numel sh'). nia.
Qed.

Lemma take_drop_take (l : list Z) b o m n :
  o + n ≤ m → take n (drop o (take m (drop b l))) = take n (drop (b + o) l).
Proof.
  intros H. rewrite <- drop_drop.
  replace m with (o + (m - o)) by lia. rewrite <- take_drop_commute.
  rewrite take_take. f_equal. lia.
Qed.

(** Indexing by a tuple is indexing one axis after the other:
    [a[i, j, ...] = a[i][j, ...]]. *)
Lemma getitem_cons a i idx :
  np.getitem a (i :: idx) = result_bind (np.getitem a [i]) (λ r, np.getitem r idx).
Proof.
  unfold np.getitem. destruct a as [t sh l]. simpl.
  destruct sh as [|d sh']; simpl; [done|].
  destruct (np.norm_index d i) as [k|]; [|done].
  destruct (np.offset sh' idx) as [[o rest]|] eqn:Ho; simpl; rewrite Ho; [|done].
  apply offset_bound in Ho. do 2 f_equal.
  rewrite Nat.add_0_r. symmetry. apply take_drop_take. lia.
Qed.

(** ** C6: the Contour wrapper *)

Lemma getitem_chain2 a i j :
  np.getitem a [i; j] = result_bind (np.getitem a [i]) (λ p, np.getitem p [j]).
Proof. apply getitem_cons. Qed.

Lemma getitem_chain3 a i j k :
  np.getitem a [i; j; k] =
    result_bind (np.getitem a [i])
      (λ p, result_bind (np.getitem p [j]) (λ q, np.getitem q [k])).
Proof.
  rewrite getitem_cons. destruct (np.getitem a [i]) as [p|]; [|done].
  simpl. apply getitem_cons.
Qed.

(** C6.  A [Contour] built from [points] and a supplied moment dictionary
    [m] with an entry [m00] is the new object holding [points], [m] and
    [area = m["m00"]]; nothing else changes.  On it, [len(c)] is
    [len(points)], [c[i]] is [points[i][0]], [c[(i, j)]] is
    [points[i][0][j]] (in each case with the same exception when numpy
    raises one), and a tuple key of more than two elements raises
    [ValueError].  With [moment=None] the constructor first calls
    [cv.moments(points)] and goes on with the dictionary it returns. *)
Theorem contour_is_positional opencv s pts a m v :
  heap s !! pts = Some a →
  m !! "m00" = Some v →
  let c := length (objects s) in
  let s' := State (heap s) (objects s ++ [ContourObj pts m v]) (calls s) in
  let logged := State (heap s) (objects s) (calls s ++ [cv.moments a]) in
  Contour.__init__ opencv pts (Some m) s = (Ok c, s')
  ∧ (area <$> objects s' !! c) = m !! "m00"
  ∧ Contour.__len__ c s' = (np.len a, s')
  ∧ (∀ i, Contour.__getitem__ c (KInt i) s' =
          (result_bind (np.getitem a [i]) (λ p, np.getitem p [0%Z]), s'))
  ∧ (∀ i j, Contour.__getitem__ c (KTuple [i; j]) s' =
          (result_bind (np.getitem a [i]) (λ p,
             result_bind (np.getitem p [0%Z]) (λ q, np.getitem q [j])), s'))
  ∧ (∀ ks, 2 < length ks →
          Contour.__getitem__ c (KTuple ks) s' =
            (Raise (ValueError ("Too many indices: " +:+ pretty (length ks))), s'))
  ∧ Contour.__init__ opencv pts None s =
      match opencv (cv.moments a) with
      | Ok m' => Contour.__init__ opencv pts (Some m') logged
      | Raise e => (Raise e, logged)
      end.
Proof.
  intros Ha Hm c s' logged.
  assert (objects s' !! c = Some (ContourObj pts m v)) as Hc.
  { subst c s'. simpl. by rewrite lookup_app_r, Nat.sub_diag. }
  assert (heap s' !! pts = Some a) as Ha' by done.
  repeat split.
  - unfold Contour.__init__. run_step. by rewrite Hm.
  - by rewrite Hc, Hm.
  - unfold Contour.__len__.
    rewrite (bind_ok _ _ _ _ _ (attrs_ok _ _ _ Hc)).
    by rewrite (bind_ok _ _ _ _ _ (read_ok _ _ _ Ha')).
  - intros i. unfold Contour.__getitem__.
    rewrite (bind_ok _ _ _ _ _ (attrs_ok _ _ _ Hc)).
    rewrite (bind_ok _ _ _ _ _ (read_ok _ _ _ Ha')).
    unfold lift. by rewrite getitem_chain2.
  - intros i j. unfold Contour.__getitem__.
    rewrite bind_run. unfold lift at 1. simpl.
    rewrite (bind_ok _ _ _ _ _ (attrs_ok _ _ _ Hc)).
    rewrite bind_run. unfold lift at 1. simpl.
    rewrite bind_run. unfold lift at 1. simpl.
    rewrite (bind_ok _ _ _ _ _ (read_ok _ _ _ Ha')).
    unfold lift. by rewrite getitem_chain3.
  - intros ks Hks. unfold Contour.__getitem__.
    rewrite bind_run. unfold lift at 1. simpl.
    by rewrite decide_True by done.
  - unfold Contour.__init__. rewrite !bind_run.
    rewrite (read_ok _ _ _ Ha). unfold cv_call. fold logged.
    destruct (opencv (cv.moments a)) as [m'|e]; reflexivity.
Qed.

Lemma contour_is_positional_witness :
  let m : gmap string float := {["m00" := 8%float]} in
  let s' := State (heap example_state)
              [ContourObj 3 {["m00" := 8%float]} 8%float; ContourObj 3 m 8%float] [] in
  Contour.__init__ identity_opencv 3 (Some m) example_state = (Ok 1, s')
  ∧ Contour.__len__ 1 s' = (Ok 3, s')
  ∧ Contour.__getitem__ 1 (KInt 2) s' =
      (Ok (np.NdArray np.int32 [2] [5; 11]%Z), s')
  ∧ Contour.__getitem__ 1 (KTuple [-1; 1]%Z) s' =
      (Ok (np.NdArray np.int32 [] [11]%Z), s')
  ∧ Contour.__getitem__ 1 (KTuple [0; 0; 0]%Z) s' =
      (Raise (ValueError "Too many indices: 3"), s').
Proof.
  intros m s'.
  destruct (contour_is_positional identity_opencv example_state 3 triangle m
              8%float eq_refl eq_refl)
    as (Hinit & _ & Hlen & Hint & Htuple & Hmany & _).
  split; [exact Hinit|]. split; [exact Hlen|].
  split; [exact (Hint 2%Z)|]. split; [exact (Htuple (-1)%Z 1%Z)|].
  apply (Hmany [0; 0; 0]%Z). simpl. lia.
Defined.

(** ** NumPy broadcasting and assignment *)

Lemma numel_cons d sh : np.numel (d :: sh) = d * np.numel sh.
Proof. reflexivity. Qed.

Lemma length_concat_replicate (d : nat) (r : list Z) :
  length (concat (replicate d r)) = d * length r.
Proof. induction d as [|d IH]; simpl; [done|]. rewrite length_app, IH. lia. Qed.

Lemma sequence_chunks_length (f : list Z → option (list Z)) sz m n :
  (∀ c r, length c = sz → f c = Some r → length r = m) →
  ∀ l rs, length l = n * sz →
    np.sequence (f <$> np.chunks n sz l) = Some rs → length (concat rs) = n * m.
Proof.
  intros Hf. induction n as [|n IH]; intros l rs Hl; simpl.
  - intros; simplify_eq. done.
  - destruct (f (take sz l)) as [r|] eqn:Hr; [|done].
    destruct (np.sequence _) as [rs'|] eqn:Hrs; [|done].
    intros; simplify_eq. simpl. rewrite length_app.
    apply Hf in Hr; [|rewrite length_take; lia].
    apply IH in Hrs; [lia|]. rewrite length_drop. lia.
Qed.

Lemma broadcast_length tsh : ∀ vsh vdata r,
  length vdata = np.numel vsh →
  np.broadcast vsh vdata tsh = Some r → length r = np.numel tsh.
Proof.
  induction tsh as [|d tsh IH]; intros vsh vdata r Hv; simpl.
  - destruct vsh; [|done]. intros; simplify_eq. done.
  - case_decide.
    + destruct (np.broadcast vsh vdata tsh) as [r'|] eqn:Hr; [|done].
      simpl. intros; simplify_eq. rewrite length_concat_replicate.
      by rewrite (IH _ _ _ Hv Hr).
    + destruct vsh as [|e vsh']; [done|]. rewrite numel_cons in Hv.
      case_decide; [|case_decide; [|done]].
      * subst e. destruct (np.sequence _) as [rs|] eqn:Hrs; [|done].
        simpl. intros; simplify_eq.
        eapply sequence_chunks_length; [|exact Hv|exact Hrs].
        intros c r' Hc. by apply IH.
      * subst e. destruct (np.broadcast vsh' vdata tsh) as [r'|] eqn:Hr; [|done].
        simpl. intros; simplify_eq. rewrite length_concat_replicate.
        erewrite IH; [done| |exact Hr]. lia.
Qed.

Lemma sequence_chunks_id (f : list Z → option (list Z)) sz n :
  (∀ c, length c = sz → f c = Some c) →
  ∀ l, length l = n * sz →
    @concat Z <$> np.sequence (f <$> np.chunks n sz l) = Some l.
Proof.
  intros Hf. induction n as [|n IH]; intros l Hl; simpl.
  - destruct l; [done|]. simpl in Hl. lia.
  - rewrite Hf by (rewrite length_take; lia).
    specialize (IH (drop sz l)). rewrite length_drop in IH.
    destruct (np.sequence _) as [rs|]; simpl in *.
    + f_equal. assert (Some (concat rs) = Some (drop sz l)) as Hrs by (apply IH; lia).
      simplify_eq. rewrite Hrs. apply take_drop.
    + discriminate IH. lia.
Qed.

Lemma broadcast_same sh : ∀ vdata,
  length vdata = np.numel sh → np.broadcast sh vdata sh = Some vdata.
Proof.
  induction sh as [|d sh IH]; intros vdata Hv; simpl; [done|].
  rewrite decide_False by (simpl; lia). rewrite decide_True by done.
  by apply sequence_chunks_id.
Qed.

Lemma strip_ones_numel n : ∀ sh sh',
  np.strip_ones n sh = Some sh' → np.numel sh' = np.numel sh.
Proof.
  induction n as [|n IH]; intros sh sh'; simpl.
  - intros; by simplify_eq.
  - destruct sh as [|[|[|e]] sh'']; try done.
    intros H. rewrite (IH _ _ H), numel_cons. lia.
Qed.

Lemma broadcast_to_length v tsh r :
  np.wf v → np.broadcast_to v tsh = Some r → length r = np.numel tsh.
Proof.
  unfold np.broadcast_to, np.wf, np.size. intros Hv.
  destruct (np.strip_ones _ _) as [sh|] eqn:Hs; [|done]. simpl.
  apply broadcast_length. by rewrite (strip_ones_numel _ _ _ Hs).
Qed.

Lemma broadcast_to_same v : np.wf v → np.broadcast_to v (np.shape v) = Some (np.data v).
Proof.
  unfold np.broadcast_to. intros Hv. rewrite Nat.sub_diag. simpl.
  by apply broadcast_same.
Qed.

Lemma asarray_wf t v w : np.wf_like v → np.asarray t v = Ok w → np.wf w.
Proof.
  destruct v as [z|zs|a]; simpl; intros Hv Hw.
  - case_decide; by simplify_eq.
  - case_decide; simplify_eq. unfold np.wf, np.size. simpl. lia.
  - simplify_eq. unfold np.wf, np.astype, np.size in *. simpl.
    by rewrite length_fmap.
Qed.

Lemma assigned_length t v tsh vs :
  np.wf_like v → np.assigned t v tsh = Ok vs → length vs = np.numel tsh.
Proof.
  unfold np.assigned. intros Hv. case_decide; [done|].
  destruct (np.asarray t v) as [w|] eqn:Hw; [|done].
  destruct (np.broadcast_to w tsh) as [vs'|] eqn:Hb; [|done].
  intros; simplify_eq. eapply broadcast_to_length; [|done].
  by eapply asarray_wf.
Qed.

(** Reading back what was assigned: after [a[idx] = v], [a[idx]] is [v]
    converted to the type of [a] and broadcast to the shape of the
    region. *)
Lemma getitem_setitem a idx v a' :
  np.wf a → np.wf_like v → np.setitem a idx v = Ok a' →
  ∃ o rest vs,
    np.offset (np.shape a) idx = Some (o, rest)
    ∧ np.assigned (np.dtype a) v rest = Ok vs
    ∧ np.getitem a' idx = Ok (np.NdArray (np.dtype a) rest vs).
Proof.
  unfold np.setitem, np.getitem. intros Ha Hv.
  destruct (np.offset _ _) as [[o rest]|] eqn:Ho; [|done].
  destruct (np.assigned _ _ _) as [vs|] eqn:Hb; [|done].
  intros; simplify_eq. simpl. rewrite Ho. exists o, rest, vs.
  split; [done|]. split; [done|]. do 2 f_equal.
  apply offset_bound in Ho. apply assigned_length in Hb; [|done].
  unfold np.wf, np.size in Ha.
  rewrite drop_app_length' by (rewrite length_take; lia).
  by rewrite take_app_length'.
Qed.

(** ** C10: assignment through an integer key *)

Lemma setitem_int_key_run s c o a i value :
  objects s !! c = Some o → heap s !! points o = Some a →
  Contour.__setitem__ c (KInt i) value s =
    match np.setitem a [i; 0%Z] value with
    | Ok a' =>
        (Raise int_has_no_len,
         State (<[points o := a']> (heap s)) (objects s) (calls s))
    | Raise e => (Raise e, s)
    end.
Proof.
  intros Hc Ha. unfold Contour.__setitem__.
  rewrite bind_run, (bind_ok _ _ _ _ _ (attrs_ok _ _ _ Hc)).
  rewrite (bind_ok _ _ _ _ _ (read_ok _ _ _ Ha)).
  rewrite bind_run. unfold lift at 1.
  destruct (np.setitem a [i; 0%Z] value) as [a'|e]; [|reflexivity].
  by rewrite (write_ok _ _ _ _ Ha).
Qed.

(** C10 as stated fails on the assignment [c[5] = (0, 0)] to a contour of
    three points: numpy raises [IndexError], nothing is written and no
    [TypeError] is raised. *)
Lemma setitem_int_key_out_of_range :
  let r := Contour.__setitem__ 0 (KInt 5) (np.py_tuple [0; 0]%Z) example_state in
  r = (Raise IndexError, example_state) ∧ ∀ msg, r.1 ≠ Raise (TypeError msg).
Proof. split; [reflexivity|]. intros msg. discriminate. Qed.

(** C10, amended.  For a contour [c] and an integer key [i], the
    assignment [c[i] = value] never completes normally.  When numpy accepts
    [points[i, 0] = value], the write takes effect (reading [c[i]] back
    gives the value, in the type of the points, broadcast to the point)
    and [TypeError] is raised afterwards by [len(key)]; when numpy refuses
    it (index out of range, value that cannot be converted or broadcast),
    numpy's exception is raised and nothing is written. *)
Theorem setitem_int_key_never_completes s c o a i value :
  objects s !! c = Some o → heap s !! points o = Some a →
  np.wf a → np.wf_like value →
  match np.setitem a [i; 0%Z] value with
  | Ok a' =>
      let s' := State (<[points o := a']> (heap s)) (objects s) (calls s) in
      Contour.__setitem__ c (KInt i) value s = (Raise int_has_no_len, s')
      ∧ ∃ o' rest vs,
          np.offset (np.shape a) [i; 0%Z] = Some (o', rest)
          ∧ np.assigned (np.dtype a) value rest = Ok vs
          ∧ Contour.__getitem__ c (KInt i) s' =
              (Ok (np.NdArray (np.dtype a) rest vs), s')
  | Raise e => Contour.__setitem__ c (KInt i) value s = (Raise e, s)
  end
  ∧ ∀ u s', Contour.__setitem__ c (KInt i) value s ≠ (Ok u, s').
Proof.
  intros Hc Ha Hwa Hwv. rewrite (setitem_int_key_run _ _ _ _ _ _ Hc Ha).
  split; [|by destruct (np.setitem a _ value)].
  destruct (np.setitem a [i; 0%Z] value) as [a'|e] eqn:Hs; [|done].
  intros s'. split; [done|].
  destruct (getitem_setitem _ _ _ _ Hwa Hwv Hs) as (o' & rest & vs & Ho & Hb & Hg).
  exists o', rest, vs. repeat split; [done..|].
  assert (objects s' !! c = Some o) as Hc' by done.
  assert (heap s' !! points o = Some a') as Ha'.
  { simpl. apply list_lookup_insert_eq. by eapply lookup_lt_Some. }
  unfold Contour.__getitem__.
  rewrite (bind_ok _ _ _ _ _ (attrs_ok _ _ _ Hc')).
  rewrite (bind_ok _ _ _ _ _ (read_ok _ _ _ Ha')).
  unfold lift. by rewrite Hg.
Qed.

Lemma setitem_int_key_never_completes_witness :
  let value := np.py_tuple [0; 0]%Z in
  let s' := State [grey_2x3; colour_2x2; no_samples;
                   np.NdArray np.int32 [3; 1; 2] [5; 7; 0; 0; 5; 11]%Z]
                  (objects example_state) [] in
  Contour.__setitem__ 0 (KInt 1) value example_state = (Raise int_has_no_len, s')
  ∧ Contour.__getitem__ 0 (KInt 1) s' =
      (Ok (np.NdArray np.int32 [2] [0; 0]%Z), s').
Proof.
  intros value s'.
  destruct (setitem_int_key_never_completes example_state 0
              (ContourObj 3 {["m00" := 8%float]} 8%float) triangle 1 value
              eq_refl eq_refl eq_refl I) as [[Hrun Hback] _].
  split; [exact Hrun|].
  destruct Hback as (o' & rest & vs & Ho & Hb & Hg).
  injection Ho as <- <-. injection Hb as <-. exact Hg.
Defined.

(** ** C5: normalize *)





(** ** Arrays of points, shape [(n, 1, 2)] *)

Lemma offset_point n i j :
  i < n → j < 2 →
  np.offset [n; 1; 2] [Z.of_nat i; 0%Z; Z.of_nat j] = Some (2 * i + j, []).
Proof.
  intros Hi Hj. simpl. rewrite !norm_index_of_nat by done.
  change (np.norm_index 1 0) with (Some 0). simpl.
  do 2 f_equal. lia.
Qed.

Lemma take_1_drop (d : list Z) k x : d !! k = Some x → take 1 (drop k d) = [x].
Proof. intros H. by rewrite (drop_S _ _ _ H). Qed.

Lemma getitem_coord t n d i j x :
  i < n → j < 2 → d !! (2 * i + j) = Some x →
  np.getitem (np.NdArray t [n; 1; 2] d) [Z.of_nat i; 0%Z; Z.of_nat j] =
    Ok (np.NdArray t [] [x]).
Proof.
  intros Hi Hj Hx. unfold np.getitem. cbn [np.shape np.data np.dtype].
  rewrite offset_point by done. change (np.numel []) with 1.
  by rewrite (take_1_drop _ _ _ Hx).
Qed.

(** A Python [int] that is a value of the type is written as it is; a
    NumPy scalar is converted to the type. *)
Lemma assigned_py_int t v :
  np.in_range t v → np.assigned t (np.py_int v) [] = Ok [v].
Proof.
  intros Hv. unfold np.assigned. rewrite decide_False by (by intros [_ ?]).
  simpl. by rewrite decide_True.
Qed.

Lemma assigned_py_int_overflow t v :
  ¬ np.in_range t v → np.assigned t (np.py_int v) [] = Raise OverflowError.
Proof.
  intros Hv. unfold np.assigned. rewrite decide_False by (by intros [_ ?]).
  simpl. by rewrite decide_False.
Qed.

Lemma assigned_scalar t t' v :
  np.assigned t (np.array (np.NdArray t' [] [v])) [] = Ok [np.wrap t v].
Proof.
  unfold np.assigned. by rewrite decide_False by (by intros [_ ?]).
Qed.

Lemma setitem_coord t n d i j value v :
  i < n → j < 2 → 2 * i + j < length d →
  np.assigned t value [] = Ok [v] →
  np.setitem (np.NdArray t [n; 1; 2] d) [Z.of_nat i; 0%Z; Z.of_nat j] value =
    Ok (np.NdArray t [n; 1; 2] (<[2 * i + j := v]> d)).
Proof.
  intros Hi Hj Hlen Hv. unfold np.setitem. cbn [np.shape np.data np.dtype].
  rewrite offset_point by done. rewrite Hv. do 2 f_equal.
  rewrite insert_take_drop by done. simpl. do 3 f_equal. lia.
Qed.

Lemma getitem_point t n d i x y :
  i < n → d !! (2 * i) = Some x → d !! (2 * i + 1) = Some y →
  np.getitem (np.NdArray t [n; 1; 2] d) [Z.of_nat i; 0%Z] =
    Ok (np.NdArray t [2] [x; y]).
Proof.
  intros Hi Hx Hy. unfold np.getitem. cbn [np.shape np.data np.dtype]. simpl.
  rewrite norm_index_of_nat by done.
  change (np.norm_index 1 0) with (Some 0). simpl. do 2 f_equal.
  replace (i * 2 + 0) with (2 * i) by lia.
  rewrite (drop_S _ _ _ Hx). simpl. f_equal.
  apply take_1_drop. rewrite <- Hy. f_equal. lia.
Qed.

Lemma shifted_length t rx ry lo hi d :
  length (shifted t rx ry lo hi d) = length d.
Proof. apply length_imap. Qed.

Lemma shifted_lookup t rx ry lo hi d p :
  shifted t rx ry lo hi d !! p =
    (λ v, if decide (lo ≤ p < hi)
          then np.wrap t (if Nat.even p then v - rx else v - ry)%Z else v)
      <$> d !! p.
Proof. unfold shifted. by rewrite list_lookup_imap. Qed.

Lemma shifted_empty t rx ry lo d : shifted t rx ry lo lo d = d.
Proof.
  apply list_eq. intros p. rewrite shifted_lookup.
  destruct (d !! p); simpl; [|done]. rewrite decide_False by lia. done.
Qed.

Lemma even_double i : Nat.even (2 * i) = true.
Proof. by rewrite Nat.even_mul. Qed.

Lemma even_double_succ i : Nat.even (2 * i + 1) = false.
Proof.
  replace (2 * i + 1) with (S (2 * i)) by lia.
  by rewrite Nat.even_succ, Nat.odd_mul.
Qed.

(** Moving point [i] after the points before it. *)
Lemma shifted_step t rx ry d i x y :
  d !! (2 * i) = Some x → d !! (2 * i + 1) = Some y →
  <[2 * i + 1 := np.wrap t (y - ry)]>
    (<[2 * i := np.wrap t (x - rx)]> (shifted t rx ry 0 (2 * i) d))
  = shifted t rx ry 0 (2 * (i + 1)) d.
Proof.
  intros Hx Hy. apply list_eq. intros p.
  assert (2 * i + 1 < length d) as Hlen by (by eapply lookup_lt_Some).
  rewrite (shifted_lookup _ _ _ _ (2 * (i + 1))).
  destruct (decide (p = 2 * i + 1)) as [->|Hp1].
  { rewrite list_lookup_insert_eq
      by (rewrite length_insert, shifted_length; lia).
    rewrite Hy. unfold fmap, option_fmap, option_map.
    rewrite decide_True by lia. by rewrite even_double_succ. }
  rewrite list_lookup_insert_ne by done.
  destruct (decide (p = 2 * i)) as [->|Hp0].
  { rewrite list_lookup_insert_eq by (rewrite shifted_length; lia).
    rewrite Hx. unfold fmap, option_fmap, option_map.
    rewrite decide_True by lia. by rewrite even_double. }
  rewrite list_lookup_insert_ne by done. rewrite shifted_lookup.
  destruct (d !! p); unfold fmap, option_fmap, option_map; [|done]. f_equal.
  destruct (decide (0 ≤ p < 2 * i)).
  - by rewrite decide_True by lia.
  - by rewrite decide_False by lia.
Qed.

(** ** Running scale_contour_to_rect *)

Lemma getitem_tuple_run s c o a i j :
  objects s !! c = Some o → heap s !! points o = Some a →
  Contour.__getitem__ c (KTuple [i; j]) s = (np.getitem a [i; 0%Z; j], s).
Proof.
  intros Hc Ha. unfold Contour.__getitem__.
  rewrite bind_run. unfold lift at 1. simpl.
  rewrite (bind_ok _ _ _ _ _ (attrs_ok _ _ _ Hc)).
  rewrite bind_run. unfold lift at 1. simpl.
  rewrite bind_run. unfold lift at 1. simpl.
  by rewrite (bind_ok _ _ _ _ _ (read_ok _ _ _ Ha)).
Qed.

Lemma setitem_tuple_run_any s c o a i j v :
  objects s !! c = Some o → heap s !! points o = Some a →
  Contour.__setitem__ c (KTuple [i; j]) v s =
    match np.setitem a [i; 0%Z; j] v with
    | Ok a' =>
        (Ok tt, State (<[points o := a']> (heap s)) (objects s) (calls s))
    | Raise e => (Raise e, s)
    end.
Proof.
  intros Hc Ha. unfold Contour.__setitem__.
  rewrite bind_run. unfold mret at 1, M_ret at 1.
  rewrite bind_run. unfold lift at 1. simpl.
  rewrite (bind_ok _ _ _ _ _ (attrs_ok _ _ _ Hc)).
  rewrite bind_run. unfold lift at 1. simpl.
  rewrite bind_run. unfold lift at 1. simpl.
  rewrite (bind_ok _ _ _ _ _ (read_ok _ _ _ Ha)).
  rewrite bind_run. unfold lift at 1.
  destruct (np.setitem a [i; 0%Z; j] v) as [a'|e]; [|done].
  by apply (write_ok _ _ a).
Qed.

Lemma setitem_tuple_run s c o a i j v a' :
  objects s !! c = Some o → heap s !! points o = Some a →
  np.setitem a [i; 0%Z; j] v = Ok a' →
  Contour.__setitem__ c (KTuple [i; j]) v s =
    (Ok tt, State (<[points o := a']> (heap s)) (objects s) (calls s)).
Proof.
  intros Hc Ha Hs. by rewrite (setitem_tuple_run_any _ _ _ _ _ _ _ Hc Ha), Hs.
Qed.

(** One assignment [contour[i, j] = contour[i, j] - r]: read, subtract
    in the type of the points, write. *)
Lemma scale_coord_run s c o t n d i j x r :
  objects s !! c = Some o →
  heap s !! points o = Some (np.NdArray t [n; 1; 2] d) →
  i < n → j < 2 → d !! (2 * i + j) = Some x →
  (v ← Contour.__getitem__ c (KTuple [Z.of_nat i; Z.of_nat j]);
   v' ← lift (np.sub_scalar v r);
   Contour.__setitem__ c (KTuple [Z.of_nat i; Z.of_nat j]) (np.array v')) s =
    if decide (np.in_range t r) then
      (Ok tt,
       State (<[points o :=
                  np.NdArray t [n; 1; 2] (<[2 * i + j := np.wrap t (x - r)]> d)]>
                (heap s))
         (objects s) (calls s))
    else (Raise OverflowError, s).
Proof.
  intros Hc Ha Hi Hj Hx.
  assert (2 * i + j < length d) as Hlen by (by eapply lookup_lt_Some).
  rewrite bind_run, (getitem_tuple_run _ _ _ _ _ _ Hc Ha).
  rewrite (getitem_coord t n d i j x) by done.
  rewrite bind_run. unfold lift at 1, np.sub_scalar. cbn [np.dtype np.shape np.data].
  case_decide; [|done]. simpl fmap.
  apply (setitem_tuple_run _ _ _ _ _ _ _ _ Hc Ha).
  apply setitem_coord; [done..|].
  rewrite assigned_scalar. by rewrite (wrap_in_range _ _ (wrap_range _ _)).
Qed.

Lemma scale_point_run s c o t n d i x y rect :
  objects s !! c = Some o →
  heap s !! points o = Some (np.NdArray t [n; 1; 2] d) →
  i < n → d !! (2 * i) = Some x → d !! (2 * i + 1) = Some y →
  np.in_range t (rect_x rect) → np.in_range t (rect_y rect) →
  scale_point c rect i s =
    (Ok tt,
     State (<[points o :=
                np.NdArray t [n; 1; 2]
                  (<[2 * i + 1 := np.wrap t (y - rect_y rect)]>
                     (<[2 * i := np.wrap t (x - rect_x rect)]> d))]> (heap s))
       (objects s) (calls s)).
Proof.
  intros Hc Ha Hi Hx Hy Hrx Hry. unfold scale_point.
  assert (points o < length (heap s)) as Hp by (by eapply lookup_lt_Some).
  assert (2 * i + 1 < length d) as Hlen by (by eapply lookup_lt_Some).
  change 0%Z with (Z.of_nat 0) at 1 2. change 1%Z with (Z.of_nat 1).
  rewrite bind_run.
  rewrite (scale_coord_run s c o t n d i 0 x) by (done || lia || by rewrite Nat.add_0_r).
  rewrite decide_True by done. rewrite Nat.add_0_r.
  set (d1 := <[2 * i := np.wrap t (x - rect_x rect)]> d).
  set (s1 := State _ _ _).
  assert (objects s1 !! c = Some o) as Hc1 by done.
  assert (heap s1 !! points o = Some (np.NdArray t [n; 1; 2] d1)) as Ha1.
  { simpl. by apply list_lookup_insert_eq. }
  assert (d1 !! (2 * i + 1) = Some y) as Hy1.
  { subst d1. rewrite list_lookup_insert_ne by lia. done. }
  rewrite (scale_coord_run s1 c o t n d1 i 1 y (rect_y rect)
             Hc1 Ha1 Hi (le_n 2) Hy1).
  rewrite decide_True by done.
  subst s1. simpl. by rewrite list_insert_insert_eq.
Qed.

Lemma scale_loop c o t n d rect objs log m : ∀ k h,
  k + m ≤ n → length d = 2 * n →
  np.in_range t (rect_x rect) → np.in_range t (rect_y rect) →
  objs !! c = Some o →
  h !! points o =
    Some (np.NdArray t [n; 1; 2]
            (shifted t (rect_x rect) (rect_y rect) 0 (2 * k) d)) →
  for_each (seq k m) (scale_point c rect) (State h objs log) =
    (Ok tt,
     State (<[points o :=
                np.NdArray t [n; 1; 2]
                  (shifted t (rect_x rect) (rect_y rect) 0 (2 * (k + m)) d)]> h)
       objs log).
Proof.
  induction m as [|m IH]; intros k h Hk Hd Hrx Hry Hc Ha; simpl.
  - unfold mret, M_ret. rewrite Nat.add_0_r. by rewrite list_insert_id.
  - destruct (lookup_lt_is_Some_2 d (2 * k)) as [x Hx]; [lia|].
    destruct (lookup_lt_is_Some_2 d (2 * k + 1)) as [y Hy]; [lia|].
    rewrite bind_run.
    rewrite (scale_point_run (State h objs log) c o t n _ k x y rect Hc Ha);
      [|lia|..|done|done].
    2,3: rewrite shifted_lookup, ?Hx, ?Hy; unfold fmap, option_fmap, option_map;
         by rewrite decide_False by lia.
    rewrite (shifted_step _ _ _ _ _ _ _ Hx Hy). simpl.
    rewrite (IH (S k)); [| lia | done | done | done | done |].
    + rewrite list_insert_insert_eq. do 4 f_equal. f_equal. lia.
    + replace (k + 1 + (k + 1 + 0)) with (2 * S k) by lia.
      apply list_lookup_insert_eq. by eapply lookup_lt_Some.
Qed.

Lemma getitem_int_run s c o a i :
  objects s !! c = Some o → heap s !! points o = Some a →
  Contour.__getitem__ c (KInt i) s = (np.getitem a [i; 0%Z], s).
Proof.
  intros Hc Ha. unfold Contour.__getitem__.
  rewrite (bind_ok _ _ _ _ _ (attrs_ok _ _ _ Hc)).
  by rewrite (bind_ok _ _ _ _ _ (read_ok _ _ _ Ha)).
Qed.

Lemma len_run s c o a :
  objects s !! c = Some o → heap s !! points o = Some a →
  Contour.__len__ c s = (np.len a, s).
Proof.
  intros Hc Ha. unfold Contour.__len__.
  rewrite (bind_ok _ _ _ _ _ (attrs_ok _ _ _ Hc)).
  by rewrite (bind_ok _ _ _ _ _ (read_ok _ _ _ Ha)).
Qed.

(** The start of every run: the new [Contour], then the loop over the
    points. *)
Lemma scale_contour_to_rect_start opencv s c o t n d v rect :
  objects s !! c = Some o →
  heap s !! points o = Some (np.NdArray t [n; 1; 2] d) →
  moment o !! "m00" = Some v →
  scale_contour_to_rect opencv c rect s =
    match for_each (seq 0 n) (scale_point (length (objects s)) rect)
            (State (heap s) (objects s ++ [ContourObj (points o) (moment o) v])
               (calls s)) with
    | (Ok _, u) => (Ok (length (objects s)), u)
    | (Raise e, u) => (Raise e, u)
    end.
Proof.
  intros Hc Ha Hm. unfold scale_contour_to_rect.
  rewrite (bind_ok _ _ _ _ _ (attrs_ok _ _ _ Hc)).
  rewrite bind_run. unfold Contour.__init__ at 1.
  rewrite bind_run. unfold mret at 1, M_ret at 1.
  rewrite bind_run, Hm. unfold mret at 1, M_ret at 1. unfold new.
  set (o' := ContourObj (points o) (moment o) v).
  set (s1 := State (heap s) (objects s ++ [o']) (calls s)).
  assert (objects s1 !! length (objects s) = Some o') as Hc1.
  { simpl. by rewrite lookup_app_r, Nat.sub_diag. }
  assert (heap s1 !! points o' = Some (np.NdArray t [n; 1; 2] d)) as Ha1 by done.
  rewrite bind_run, (len_run _ _ _ _ Hc1 Ha1).
  change (np.len _) with (@Ok nat n). cbv iota beta.
  rewrite bind_run. by destruct (for_each _ _ _) as [[[]|e] u].
Qed.

(** The whole run: a new [Contour] on the same array, and the array with
    every point moved. *)
Lemma scale_contour_to_rect_run opencv s c o t n d v rect :
  objects s !! c = Some o →
  heap s !! points o = Some (np.NdArray t [n; 1; 2] d) →
  length d = 2 * n →
  moment o !! "m00" = Some v →
  np.in_range t (rect_x rect) → np.in_range t (rect_y rect) →
  scale_contour_to_rect opencv c rect s =
    (Ok (length (objects s)),
     State (<[points o :=
                np.NdArray t [n; 1; 2]
                  (shifted t (rect_x rect) (rect_y rect) 0 (2 * n) d)]> (heap s))
       (objects s ++ [ContourObj (points o) (moment o) v]) (calls s)).
Proof.
  intros Hc Ha Hd Hm Hrx Hry.
  rewrite (scale_contour_to_rect_start opencv s c o t n d v rect Hc Ha Hm).
  set (o' := ContourObj (points o) (moment o) v).
  rewrite (scale_loop (length (objects s)) o' t n d rect _ _ n 0 (heap s));
    [done|lia|done|done|done| |].
  - simpl. by rewrite lookup_app_r, Nat.sub_diag.
  - by rewrite shifted_empty.
Qed.

(** A rectangle whose [x] or [y] is no value of the type of the points
    stops the run at the first point. *)
Lemma scale_contour_to_rect_overflow opencv s c o t n d v rect :
  objects s !! c = Some o →
  heap s !! points o = Some (np.NdArray t [n; 1; 2] d) →
  length d = 2 * n → 0 < n →
  moment o !! "m00" = Some v →
  ¬ (np.in_range t (rect_x rect) ∧ np.in_range t (rect_y rect)) →
  (scale_contour_to_rect opencv c rect s).1 = Raise OverflowError.
Proof.
  intros Hc Ha Hd Hn Hm Hout.
  rewrite (scale_contour_to_rect_start opencv s c o t n d v rect Hc Ha Hm).
  set (o' := ContourObj (points o) (moment o) v).
  set (s1 := State (heap s) (objects s ++ [o']) (calls s)).
  assert (objects s1 !! length (objects s) = Some o') as Hc1.
  { simpl. by rewrite lookup_app_r, Nat.sub_diag. }
  assert (heap s1 !! points o' = Some (np.NdArray t [n; 1; 2] d)) as Ha1 by done.
  destruct n as [|n]; [lia|]. simpl for_each. rewrite bind_run.
  destruct (lookup_lt_is_Some_2 d 0) as [x Hx]; [lia|].
  destruct (lookup_lt_is_Some_2 d 1) as [y Hy]; [lia|].
  unfold scale_point. change 0%Z with (Z.of_nat 0) at 1 2.
  change 1%Z with (Z.of_nat 1). rewrite bind_run.
  rewrite (scale_coord_run s1 _ o' t (S n) d 0 0 x) by (done || lia).
  case_decide as Hrx; [|done].
  set (s2 := State _ _ _).
  assert (objects s2 !! length (objects s) = Some o') as Hc2 by done.
  assert (heap s2 !! points o' =
            Some (np.NdArray t [S n; 1; 2]
                    (<[2 * 0 + 0 := np.wrap t (x - rect_x rect)]> d))) as Ha2.
  { simpl. apply list_lookup_insert_eq. by eapply lookup_lt_Some. }
  rewrite (scale_coord_run s2 _ o' t (S n) _ 0 1 y (rect_y rect)
             Hc2 Ha2 (Nat.lt_0_succ n) (le_n 2))
    by (simpl; by rewrite list_lookup_insert_ne by lia).
  by rewrite decide_False by tauto.
Qed.

(** ** C2 and C9: scale_contour_to_rect *)

(** C2 as stated fails on points of type [int32] whose translation
    leaves the type: scaling the contour of the single point
    [(-2147483648, 0)] to a rectangle at [(1, 0)] returns a contour whose
    point is [(2147483647, 0)], not [(-2147483649, 0)]. *)
Lemma scale_contour_to_rect_wraps :
  let pts x := np.NdArray np.int32 [1; 1; 2] [x; 0%Z] in
  let o := ContourObj 0 {["m00" := 0%float]} 0%float in
  let s := State [pts (-2147483648)%Z] [o] [] in
  let s' := State [pts 2147483647%Z] [o; o] [] in
  scale_contour_to_rect identity_opencv 0 {| rect_x := 1; rect_y := 0 |} s
    = (Ok 1, s')
  ∧ Contour.__getitem__ 0 (KInt 0) s
    = (Ok (np.NdArray np.int32 [2] [-2147483648; 0]%Z), s)
  ∧ Contour.__getitem__ 1 (KInt 0) s'
    = (Ok (np.NdArray np.int32 [2] [2147483647; 0]%Z), s')
  ∧ (2147483647 ≠ -2147483648 - 1)%Z.
Proof. intros pts o s s'. repeat (split; [reflexivity|]). lia. Qed.

(** C2, amended.  For a contour [c] on an [(n, 1, 2)] array of points
    of an integer type [t], with a moment dictionary holding [m00], and a
    rectangle whose [x] and [y] are values of [t],
    [scale_contour_to_rect] returns a new [Contour] [c'] with the moment
    dictionary of [c], of the same length, whose point [i], for every
    [i < len(c)], holds the coordinates of point [i] of [c] minus
    [(rect.x, rect.y)] in the arithmetic of [t]: the point moved by
    [(-rect.x, -rect.y)] whenever the two differences are values of [t],
    and the differences wrapped around otherwise.  When [rect.x] or
    [rect.y] is no value of [t] and the contour has a point, the call
    raises [OverflowError]. *)
Theorem scale_contour_to_rect_translates opencv s c o t n d rect :
  objects s !! c = Some o →
  heap s !! points o = Some (np.NdArray t [n; 1; 2] d) →
  length d = 2 * n → is_Some (moment o !! "m00") →
  (np.in_range t (rect_x rect) → np.in_range t (rect_y rect) →
   ∃ c' s',
     scale_contour_to_rect opencv c rect s = (Ok c', s')
     ∧ (moment <$> objects s' !! c') = Some (moment o)
     ∧ Contour.__len__ c s = (Ok n, s)
     ∧ Contour.__len__ c' s' = (Ok n, s')
     ∧ ∀ i x y, i < n → d !! (2 * i) = Some x → d !! (2 * i + 1) = Some y →
         Contour.__getitem__ c (KInt (Z.of_nat i)) s =
           (Ok (np.NdArray t [2] [x; y]), s)
         ∧ Contour.__getitem__ c' (KInt (Z.of_nat i)) s' =
             (Ok (np.NdArray t [2]
                    [np.wrap t (x - rect_x rect); np.wrap t (y - rect_y rect)]),
              s')
         ∧ (np.in_range t (x - rect_x rect) → np.in_range t (y - rect_y rect) →
            Contour.__getitem__ c' (KInt (Z.of_nat i)) s' =
              (Ok (np.NdArray t [2] [x - rect_x rect; y - rect_y rect]%Z), s')))
  ∧ (0 < n → ¬ (np.in_range t (rect_x rect) ∧ np.in_range t (rect_y rect)) →
     (scale_contour_to_rect opencv c rect s).1 = Raise OverflowError).
Proof.
  intros Hc Ha Hd [v Hm]. split.
  2:{ intros Hn Hout. by eapply scale_contour_to_rect_overflow. }
  intros Hrx Hry.
  eexists _, _. split; [by eapply scale_contour_to_rect_run|].
  set (o' := ContourObj (points o) (moment o) v).
  set (s' := State _ _ _).
  assert (objects s' !! length (objects s) = Some o') as Hc'.
  { simpl. by rewrite lookup_app_r, Nat.sub_diag. }
  assert (heap s' !! points o' =
            Some (np.NdArray t [n; 1; 2]
                    (shifted t (rect_x rect) (rect_y rect) 0 (2 * n) d))) as Ha'.
  { simpl. apply list_lookup_insert_eq. by eapply lookup_lt_Some. }
  split; [by rewrite Hc'|]. split; [by rewrite (len_run _ _ _ _ Hc Ha)|].
  split; [by rewrite (len_run _ _ _ _ Hc' Ha')|].
  intros i x y Hi Hx Hy.
  assert (Contour.__getitem__ (length (objects s)) (KInt (Z.of_nat i)) s' =
            (Ok (np.NdArray t [2]
                   [np.wrap t (x - rect_x rect); np.wrap t (y - rect_y rect)]),
             s')) as Hnew.
  { rewrite (getitem_int_run _ _ _ _ _ Hc' Ha'). f_equal.
    apply getitem_point; [done|..]; rewrite shifted_lookup, ?Hx, ?Hy;
      unfold fmap, option_fmap, option_map; rewrite decide_True by lia;
      by rewrite ?even_double, ?even_double_succ. }
  split; [|split; [done|]].
  - rewrite (getitem_int_run _ _ _ _ _ Hc Ha). f_equal. by apply getitem_point.
  - intros Hfx Hfy. by rewrite Hnew, !wrap_in_range.
Qed.

Lemma scale_contour_to_rect_translates_witness :
  let rect := {| rect_x := 5; rect_y := 7 |} in
  ∃ c' s',
    scale_contour_to_rect identity_opencv 0 rect example_state = (Ok c', s')
    ∧ Contour.__getitem__ 0 (KInt 1) example_state =
        (Ok (np.NdArray np.int32 [2] [9; 7]%Z), example_state)
    ∧ Contour.__getitem__ c' (KInt 1) s' =
        (Ok (np.NdArray np.int32 [2] [4; 0]%Z), s')
    ∧ (scale_contour_to_rect identity_opencv 0
         {| rect_x := 2147483648; rect_y := 0 |} example_state).1
      = Raise OverflowError.
Proof.
  intros rect.
  destruct (scale_contour_to_rect_translates identity_opencv example_state 0
              (ContourObj 3 {["m00" := 8%float]} 8%float) np.int32 3
              [5; 7; 9; 7; 5; 11]%Z rect eq_refl eq_refl eq_refl
              (ex_intro _ 8%float eq_refl))
    as [Hin _].
  destruct (scale_contour_to_rect_translates identity_opencv example_state 0
              (ContourObj 3 {["m00" := 8%float]} 8%float) np.int32 3
              [5; 7; 9; 7; 5; 11]%Z {| rect_x := 2147483648; rect_y := 0 |}
              eq_refl eq_refl eq_refl (ex_intro _ 8%float eq_refl))
    as [_ Hout].
  destruct Hin as (c' & s' & Hrun & _ & _ & _ & Hpoints);
    [by vm_compute..|].
  exists c', s'. split; [exact Hrun|].
  destruct (Hpoints 1 9%Z 7%Z) as (Hold & _ & Hnew); [lia|done|done|].
  split; [exact Hold|]. split; [apply Hnew; by vm_compute|].
  apply Hout; [lia|]. intros [Hx _]. vm_compute in Hx. by destruct Hx as [_ []].
Defined.

(** C9 as stated fails in the same way on the argument: after scaling the
    contour of the single point [(0, 2147483647)], of type [int32], to a
    rectangle at [(0, -1)], the argument reads [(0, -2147483648)], not
    [(0, 2147483648)]. *)
Lemma scale_contour_to_rect_argument_wraps :
  let pts y := np.NdArray np.int32 [1; 1; 2] [0%Z; y] in
  let o := ContourObj 0 {["m00" := 0%float]} 0%float in
  let s := State [pts 2147483647%Z] [o] [] in
  let s' := State [pts (-2147483648)%Z] [o; o] [] in
  scale_contour_to_rect identity_opencv 0 {| rect_x := 0; rect_y := -1 |} s
    = (Ok 1, s')
  ∧ Contour.__getitem__ 0 (KInt 0) s
    = (Ok (np.NdArray np.int32 [2] [0; 2147483647]%Z), s)
  ∧ Contour.__getitem__ 0 (KInt 0) s'
    = (Ok (np.NdArray np.int32 [2] [0; -2147483648]%Z), s')
  ∧ (-2147483648 ≠ 2147483647 - -1)%Z.
Proof. intros pts o s s'. repeat (split; [reflexivity|]). lia. Qed.

(** C9, amended.  The [Contour] returned by [scale_contour_to_rect] is a
    new object on the points array of the argument, and the call has
    changed the points in that array: after it, point [i] of the argument
    [c] reads what point [i] of the returned contour reads, the old
    coordinates minus [(rect.x, rect.y)] in the arithmetic of the type [t]
    of the points.  That is the old point moved by [(-rect.x, -rect.y)]
    whenever the two differences are values of [t]; in every case the [x]
    has changed when [rect.x] is not 0 and the [y] when [rect.y] is not 0.
    Nothing else is changed: the attributes of [c] (the reference to its
    points, its moment dictionary and its area) are what they were, every
    other array is what it was, and OpenCV is not called. *)
Theorem scale_contour_to_rect_mutates_argument opencv s c o t n d rect :
  objects s !! c = Some o →
  heap s !! points o = Some (np.NdArray t [n; 1; 2] d) →
  length d = 2 * n → is_Some (moment o !! "m00") →
  np.in_range t (rect_x rect) → np.in_range t (rect_y rect) →
  ∃ c' s',
    scale_contour_to_rect opencv c rect s = (Ok c', s')
    ∧ c' ≠ c
    ∧ (points <$> objects s' !! c') = (points <$> objects s' !! c)
    ∧ (∀ i x y, i < n → d !! (2 * i) = Some x → d !! (2 * i + 1) = Some y →
         let x' := np.wrap t (x - rect_x rect) in
         let y' := np.wrap t (y - rect_y rect) in
         Contour.__getitem__ c (KInt (Z.of_nat i)) s =
           (Ok (np.NdArray t [2] [x; y]), s)
         ∧ Contour.__getitem__ c (KInt (Z.of_nat i)) s' =
             (Ok (np.NdArray t [2] [x'; y']), s')
         ∧ Contour.__getitem__ c' (KInt (Z.of_nat i)) s' =
             (Ok (np.NdArray t [2] [x'; y']), s')
         ∧ (np.in_range t (x - rect_x rect) → x' = (x - rect_x rect)%Z)
         ∧ (np.in_range t (y - rect_y rect) → y' = (y - rect_y rect)%Z)
         ∧ (rect_x rect ≠ 0%Z → x' ≠ x) ∧ (rect_y rect ≠ 0%Z → y' ≠ y))
    ∧ objects s' !! c = objects s !! c
    ∧ (∀ l, l ≠ points o → heap s' !! l = heap s !! l)
    ∧ calls s' = calls s.
Proof.
  intros Hc Ha Hd [v Hm] Hrx Hry.
  eexists _, _. split; [by eapply scale_contour_to_rect_run|].
  set (o' := ContourObj (points o) (moment o) v).
  set (s' := State _ _ _).
  assert (c < length (objects s)) as Hlt by (by eapply lookup_lt_Some).
  assert (objects s' !! c = Some o) as Hc'.
  { simpl. by apply lookup_app_l_Some. }
  assert (objects s' !! length (objects s) = Some o') as Hnew.
  { simpl. by rewrite lookup_app_r, Nat.sub_diag. }
  assert (heap s' !! points o =
            Some (np.NdArray t [n; 1; 2]
                    (shifted t (rect_x rect) (rect_y rect) 0 (2 * n) d))) as Ha'.
  { simpl. apply list_lookup_insert_eq. by eapply lookup_lt_Some. }
  split; [lia|]. split; [by rewrite Hc', Hnew|].
  split.
  { intros i x y Hi Hx Hy x' y'.
    assert (np.getitem
              (np.NdArray t [n; 1; 2]
                 (shifted t (rect_x rect) (rect_y rect) 0 (2 * n) d))
              [Z.of_nat i; 0%Z] = Ok (np.NdArray t [2] [x'; y'])) as Hget.
    { apply getitem_point; [done|..]; rewrite shifted_lookup, ?Hx, ?Hy;
        unfold fmap, option_fmap, option_map; rewrite decide_True by lia;
        by rewrite ?even_double, ?even_double_succ. }
    split.
    { rewrite (getitem_int_run _ _ _ _ _ Hc Ha). f_equal. by apply getitem_point. }
    split; [by rewrite (getitem_int_run _ _ _ _ _ Hc' Ha'), Hget|].
    split; [by rewrite (getitem_int_run _ _ _ _ _ Hnew Ha'), Hget|].
    split; [apply wrap_in_range|]. split; [apply wrap_in_range|].
    split; intros Hne; by apply wrap_sub_ne. }
  split; [by rewrite Hc', Hc|]. split; [|done].
  intros l Hl. simpl. by apply list_lookup_insert_ne.
Qed.

Lemma scale_contour_to_rect_mutates_argument_witness :
  let rect := {| rect_x := 5; rect_y := 7 |} in
  ∃ c' s',
    scale_contour_to_rect identity_opencv 0 rect example_state = (Ok c', s')
    ∧ c' ≠ 0
    ∧ (points <$> objects s' !! c') = (points <$> objects s' !! 0)
    ∧ objects s' !! 0 = objects example_state !! 0
    ∧ Contour.__getitem__ 0 (KInt 2) example_state =
        (Ok (np.NdArray np.int32 [2] [5; 11]%Z), example_state)
    ∧ Contour.__getitem__ 0 (KInt 2) s' =
        (Ok (np.NdArray np.int32 [2] [0; 4]%Z), s').
Proof.
  intros rect.
  destruct (scale_contour_to_rect_mutates_argument identity_opencv
              example_state 0 (ContourObj 3 {["m00" := 8%float]} 8%float)
              np.int32 3 [5; 7; 9; 7; 5; 11]%Z rect
              eq_refl eq_refl eq_refl (ex_intro _ 8%float eq_refl))
    as (c' & s' & Hrun & Hnew & Hshare & Hpoints & Hattrs & _);
    [by vm_compute..|].
  exists c', s'. split; [exact Hrun|]. split; [exact Hnew|].
  split; [exact Hshare|]. split; [exact Hattrs|].
  destruct (Hpoints 2 5%Z 11%Z) as (Hold & Hafter & _); [lia|done|done|].
  split; [exact Hold|exact Hafter].
Defined.

(** ** Channels: the last axis *)

Lemma put_channel_length c i vs l : length (np.put_channel c i vs l) = length l.
Proof. apply length_imap. Qed.

Lemma put_channel_lookup c i vs l p :
  np.put_channel c i vs l !! p =
    (λ x, if decide (p `mod` c = i) then default x (vs !! (p `div` c)) else x)
      <$> l !! p.
Proof. unfold np.put_channel. by rewrite list_lookup_imap. Qed.

Lemma mod_channel j c i : i < c → (j * c + i) `mod` c = i.
Proof.
  intros Hi. rewrite Nat.add_comm, Nat.Div0.mod_add. by apply Nat.mod_small.
Qed.

Lemma div_channel j c i : i < c → (j * c + i) `div` c = j.
Proof.
  intros Hi. rewrite Nat.add_comm, Nat.div_add by lia.
  rewrite Nat.div_small by done. done.
Qed.

Lemma samples_put_same c i n vs l :
  i < c → length l = n * c → length vs = n →
  np.samples c i n (np.put_channel c i vs l) = vs.
Proof.
  intros Hi Hl Hvs. apply list_eq. intros j. unfold np.samples.
  rewrite list_lookup_fmap. destruct (decide (j < n)) as [Hj|Hj].
  - rewrite lookup_seq_lt by done. simpl.
    rewrite put_channel_lookup, mod_channel, div_channel by done.
    destruct (lookup_lt_is_Some_2 l (j * c + i)) as [x Hx]; [nia|].
    destruct (lookup_lt_is_Some_2 vs j) as [y Hy]; [lia|].
    rewrite Hx, Hy. simpl. by rewrite decide_True.
  - rewrite lookup_seq_ge by lia. simpl. symmetry.
    apply lookup_ge_None. lia.
Qed.

Lemma samples_put_other c i i' n vs l :
  i' < c → i ≠ i' →
  np.samples c i' n (np.put_channel c i vs l) = np.samples c i' n l.
Proof.
  intros Hi Hne. unfold np.samples. apply list_fmap_ext. intros _ j _.
  rewrite put_channel_lookup, mod_channel by done.
  destruct (l !! (j * c + i')); simpl; [|done]. by rewrite decide_False.
Qed.

(** ** Running rotate_image *)

Lemma get_last_ok a h w c i :
  np.shape a = [h; w; c] → i < c → np.get_last a i = Ok (np.channel a c i).
Proof.
  intros Hsh Hi. unfold np.get_last, np.last_extent. rewrite Hsh. simpl.
  by rewrite decide_True.
Qed.

Lemma set_last_ok t dk h w c i r :
  i < c → np.shape r = [h; w] → np.wf r →
  np.set_last (np.NdArray t [h; w; c] dk) i r =
    Ok (np.NdArray t [h; w; c]
          (np.put_channel c i (np.wrap t <$> np.data r) dk)).
Proof.
  intros Hi Hrs Hrw. unfold np.set_last, np.last_extent. simpl last.
  cbv iota beta. rewrite decide_True by done.
  change (np.init_shape (np.NdArray t [h; w; c] dk)) with [h; w].
  cbn [np.dtype np.shape]. rewrite <- Hrs.
  change (np.shape r) with (np.shape (np.astype t r)).
  rewrite broadcast_to_same; [done|].
  unfold np.wf, np.size in *. simpl. by rewrite length_fmap.
Qed.

Lemma rotate_channel_run (opencv : cv.impl) hp objs log l cp a t h w c dk M i r :
  hp !! l = Some a → np.shape a = [h; w; c] →
  hp !! cp = Some (np.NdArray t [h; w; c] dk) →
  i < c →
  opencv (cv.warpAffine (np.channel a c i) M [w; h]) = Ok r →
  np.shape r = [h; w] → np.wf r →
  rotate_channel opencv l cp M [w; h] i (State hp objs log) =
    (Ok tt,
     State (<[cp := np.NdArray t [h; w; c]
                      (np.put_channel c i (np.wrap t <$> np.data r) dk)]> hp)
       objs (log ++ [cv.warpAffine (np.channel a c i) M [w; h]])).
Proof.
  intros Hl Hsh Hcp Hi Hr Hrs Hrw. unfold rotate_channel.
  rewrite (bind_ok _ _ _ _ _ (read_ok (State hp objs log) _ _ Hl)).
  rewrite bind_run. unfold lift at 1. rewrite (get_last_ok _ _ _ _ _ Hsh Hi).
  rewrite bind_run. unfold cv_call at 1. rewrite Hr. simpl.
  rewrite bind_run. unfold read at 1. simpl. rewrite Hcp.
  rewrite bind_run. unfold lift at 1.
  rewrite (set_last_ok _ _ _ _ _ _ _ Hi Hrs Hrw).
  unfold write. simpl. by rewrite Hcp.
Qed.

(** The loop over the channels.  Channel [i] of the copy holds what the
    call on channel [i] of the image returned, converted to the type of
    the copy. *)
Lemma rotate_loop (opencv : cv.impl) l cp a t h w c M objs m : ∀ k hp log dk,
  k + m = c →
  hp !! l = Some a → np.shape a = [h; w; c] → l ≠ cp →
  hp !! cp = Some (np.NdArray t [h; w; c] dk) →
  length dk = h * w * c →
  (∀ i, i < c → ∃ r,
     opencv (cv.warpAffine (np.channel a c i) M [w; h]) = Ok r
     ∧ np.shape r = [h; w] ∧ np.wf r) →
  (∀ i, i < k → ∃ r,
     opencv (cv.warpAffine (np.channel a c i) M [w; h]) = Ok r
     ∧ np.samples c i (h * w) dk = np.wrap t <$> np.data r) →
  ∃ d',
    for_each (seq k m) (rotate_channel opencv l cp M [w; h]) (State hp objs log) =
      (Ok tt,
       State (<[cp := np.NdArray t [h; w; c] d']> hp) objs
         (log ++ ((λ i, cv.warpAffine (np.channel a c i) M [w; h]) <$> seq k m)))
    ∧ length d' = h * w * c
    ∧ ∀ i, i < c → ∃ r,
        opencv (cv.warpAffine (np.channel a c i) M [w; h]) = Ok r
        ∧ np.samples c i (h * w) d' = np.wrap t <$> np.data r.
Proof.
  induction m as [|m IH]; intros k hp log dk Hk Hl Hsh Hne Hcp Hd Hcv Hdone.
  - exists dk. simpl. rewrite app_nil_r, list_insert_id by done.
    split; [done|]. split; [done|]. intros i Hi. apply Hdone. lia.
  - destruct (Hcv k) as (r & Hr & Hrs & Hrw); [lia|].
    assert (length (np.data r) = h * w) as Hrl.
    { unfold np.wf, np.size in Hrw. rewrite Hrs in Hrw. simpl in Hrw. lia. }
    set (d1 := np.put_channel c k (np.wrap t <$> np.data r) dk).
    destruct (IH (S k) (<[cp := np.NdArray t [h; w; c] d1]> hp)
                (log ++ [cv.warpAffine (np.channel a c k) M [w; h]]) d1)
      as (d' & Hrun & Hd' & Hall); try done.
    + lia.
    + by rewrite list_lookup_insert_ne.
    + apply list_lookup_insert_eq. by eapply lookup_lt_Some.
    + subst d1. by rewrite put_channel_length.
    + intros i Hi. destruct (decide (i = k)) as [->|Hik].
      * exists r. split; [done|]. subst d1.
        rewrite samples_put_same; [done|lia|lia|by rewrite length_fmap].
      * subst d1. rewrite samples_put_other by lia. apply Hdone. lia.
    + exists d'. split; [|done]. simpl for_each. rewrite bind_run.
      rewrite (rotate_channel_run _ _ _ _ _ _ a t h w c dk M k r) by (done || lia).
      fold d1. rewrite Hrun. rewrite list_insert_insert_eq.
      simpl. by rewrite <- app_assoc.
Qed.

(** ** C1: rotate_image *)

Lemma rotate_image_3d (opencv : cv.impl) s l a center angle scale unit M h w c :
  heap s !! l = Some a → np.wf a → np.shape a = [h; w; c] →
  opencv (cv.getRotationMatrix2D center (to_degrees unit angle) scale) = Ok M →
  (∀ i, i < c → ∃ r,
     opencv (cv.warpAffine (np.channel a c i) M [w; h]) = Ok r
     ∧ np.shape r = [h; w] ∧ np.wf r) →
  ∃ out,
    rotate_image opencv (Some l) center angle scale unit s =
      (Ok (length (heap s)),
       State (heap s ++ [out]) (objects s)
         (calls s
            ++ cv.getRotationMatrix2D center (to_degrees unit angle) scale
            :: ((λ i, cv.warpAffine (np.channel a c i) M [w; h]) <$> seq 0 c)))
    ∧ np.shape out = np.shape a
    ∧ np.dtype out = np.dtype a
    ∧ np.wf out
    ∧ ∀ i, i < c → ∃ r,
        opencv (cv.warpAffine (np.channel a c i) M [w; h]) = Ok r
        ∧ np.channel out c i = np.astype (np.dtype a) r.
Proof.
  intros Hl Hwf Hsh HM Hcv.
  assert (l < length (heap s)) as Hlt by (by eapply lookup_lt_Some).
  set (zeros := np.zeros_like a).
  destruct (rotate_loop opencv l (length (heap s)) a (np.dtype a) h w c M
              (objects s) c 0
              (heap s ++ [zeros])
              (calls s ++ [cv.getRotationMatrix2D center (to_degrees unit angle) scale])
              (replicate (np.size a) 0%Z))
    as (d' & Hrun & Hd' & Hall); try done.
  - by apply lookup_app_l_Some.
  - lia.
  - rewrite lookup_app_r, Nat.sub_diag by done. simpl. f_equal.
    subst zeros. unfold np.zeros_like. by rewrite Hsh.
  - rewrite length_replicate. unfold np.size. rewrite Hsh. simpl. lia.
  - intros i Hi. lia.
  - exists (np.NdArray (np.dtype a) [h; w; c] d').
    split; [|split; [done|split; [done|split]]].
    + unfold rotate_image. rewrite bind_run. unfold cv_call at 1. rewrite HM.
      simpl. rewrite bind_run. unfold read at 1. simpl. rewrite Hl.
      unfold np.ndim. rewrite Hsh. change (length [h; w; c]) with 3.
      rewrite decide_False by lia. rewrite decide_True by done.
      rewrite bind_run. unfold alloc at 1. simpl.
      rewrite bind_run. unfold read at 1. simpl.
      rewrite lookup_app_r, Nat.sub_diag by done. simpl.
      rewrite bind_run. unfold np.last_extent.
      change (np.shape (np.zeros_like a)) with (np.shape a). rewrite Hsh.
      change (last [h; w; c]) with (Some c). cbv iota beta.
      unfold mret at 1, M_ret at 1. cbv iota beta.
      rewrite bind_run. unfold np.init_shape. rewrite Hsh.
      change (reverse _) with [w; h].
      fold zeros. rewrite Hrun. unfold mret, M_ret. f_equal.
      rewrite insert_app_r_alt, Nat.sub_diag by done. simpl.
      by rewrite <- app_assoc.
    + unfold np.wf, np.size. simpl. lia.
    + intros i Hi. destruct (Hall i Hi) as (r & Hr & Hsamples).
      destruct (Hcv i Hi) as (r' & Hr' & Hrs & _).
      assert (r' = r) as -> by congruence.
      exists r. split; [done|].
      unfold np.channel, np.astype, np.init_shape. simpl. rewrite Hrs.
      f_equal. rewrite <- Hsamples. f_equal. lia.
Qed.

(** C1.  [rotate_image] asks OpenCV once for the rotation matrix of
    [center], the angle (turned into degrees by [180 / np.pi * angle] when
    the unit is radians) and [scale].  With that matrix [M]:
    - on an image of three dimensions [(h, w, c)] it makes one call of
      [cv.warpAffine] per channel, with [M] and the size [(w, h)], and
      returns a new array of the shape and type of the image whose channel
      [i] is what the call on channel [i] of the image returned, for every
      [i]: converted to the type of the image by the assignment, so as it
      is when the call returns samples of that type;
    - on an image of two dimensions it returns what [cv.warpAffine]
      returns on the whole image, with [M] and the reversed shape;
    - on any other image it raises [ValueError].
    OpenCV is taken to return an array of [h] rows and [w] columns when
    asked for the size [(w, h)]. *)
Theorem rotate_image_per_channel (opencv : cv.impl) s l a center angle scale unit M :
  heap s !! l = Some a → np.wf a →
  opencv (cv.getRotationMatrix2D center (to_degrees unit angle) scale) = Ok M →
  let matrix_call := cv.getRotationMatrix2D center (to_degrees unit angle) scale in
  let s0 := State (heap s) (objects s) (calls s ++ [matrix_call]) in
  (∀ h w c, np.shape a = [h; w; c] →
     (∀ i, i < c → ∃ r,
        opencv (cv.warpAffine (np.channel a c i) M [w; h]) = Ok r
        ∧ np.shape r = [h; w] ∧ np.wf r) →
     ∃ out,
       rotate_image opencv (Some l) center angle scale unit s =
         (Ok (length (heap s)),
          State (heap s ++ [out]) (objects s)
            (calls s ++ matrix_call
               :: ((λ i, cv.warpAffine (np.channel a c i) M [w; h]) <$> seq 0 c)))
       ∧ np.shape out = np.shape a
       ∧ np.dtype out = np.dtype a
       ∧ ∀ i, i < c → ∃ r,
           opencv (cv.warpAffine (np.channel a c i) M [w; h]) = Ok r
           ∧ np.channel out c i = np.astype (np.dtype a) r
           ∧ (np.dtype r = np.dtype a → np.typed r →
              opencv (cv.warpAffine (np.channel a c i) M [w; h]) =
                Ok (np.channel out c i)))
  ∧ (np.ndim a = 2 →
       rotate_image opencv (Some l) center angle scale unit s =
         returns_call opencv (cv.warpAffine a M (reverse (np.shape a))) id s0)
  ∧ (np.ndim a ≠ 2 → np.ndim a ≠ 3 →
       rotate_image opencv (Some l) center angle scale unit s =
         (Raise dimension_error, s0))
  ∧ to_degrees RADIANS angle = (180 / np_pi * angle)%float
  ∧ to_degrees DEGREES angle = angle.
Proof.
  intros Hl Hwf HM matrix_call s0. split; [|split; [|split; [|done]]].
  - intros h w c Hsh Hcv.
    destruct (rotate_image_3d opencv s l a center angle scale unit M h w c
                Hl Hwf Hsh HM Hcv) as (out & Hrun & Hshape & Htype & _ & Hall).
    exists out. repeat (split; [done|]). intros i Hi.
    destruct (Hall i Hi) as (r & Hr & Hch). exists r.
    repeat (split; [done|]). intros Ht Hty.
    by rewrite Hr, Hch, <- Ht, astype_same.
  - intros Hdim. unfold rotate_image. rewrite bind_run. unfold cv_call at 1.
    rewrite HM. simpl. rewrite bind_run. unfold read at 1. simpl. rewrite Hl.
    rewrite decide_True by done. rewrite bind_run. unfold cv_call, returns_call.
    simpl. by destruct (opencv _).
  - intros H2 H3. unfold rotate_image. rewrite bind_run. unfold cv_call at 1.
    rewrite HM. simpl. rewrite bind_run. unfold read at 1. simpl. rewrite Hl.
    by rewrite !decide_False by done.
Qed.

Lemma rotate_image_per_channel_witness :
  let M := [[1%float; 0%float; 0%float]; [0%float; 1%float; 0%float]] in
  ∃ out,
    rotate_image identity_opencv (Some 1) (1%float, 1%float) 0.5 1 RADIANS
      example_state =
      (Ok 4,
       State [grey_2x3; colour_2x2; no_samples; triangle; out]
         (objects example_state)
         (cv.getRotationMatrix2D (1%float, 1%float) (180 / np_pi * 0.5) 1
            :: ((λ i, cv.warpAffine (np.channel colour_2x2 3 i) M [2; 2])
                  <$> seq 0 3)))
    ∧ np.shape out = [2; 2; 3]
    ∧ ∀ i, i < 3 →
        identity_opencv (cv.warpAffine (np.channel colour_2x2 3 i) M [2; 2]) =
          Ok (np.channel out 3 i).
Proof.
  intros M.
  destruct (rotate_image_per_channel identity_opencv example_state 1 colour_2x2
              (1%float, 1%float) 0.5%float 1%Z RADIANS M eq_refl eq_refl eq_refl)
    as [H3d _].
  destruct (H3d 2 2 3 eq_refl) as (out & Hrun & Hshape & _ & Hall).
  { intros i Hi. exists (np.channel colour_2x2 3 i).
    destruct i as [|[|[|i]]]; [repeat split..|lia]. }
  exists out. split; [exact Hrun|]. split; [exact Hshape|].
  intros i Hi. destruct (Hall i Hi) as (r & Hr & _ & Hsame).
  assert (r = np.channel colour_2x2 3 i) as ->.
  { destruct i as [|[|[|i]]]; [by injection Hr..|lia]. }
  apply Hsame; [done|].
  destruct i as [|[|[|i]]]; [by repeat constructor..|lia].
Defined.

(** ** C7: no hidden state *)

Lemma lookup_new {A} (l : list A) x : (l ++ [x]) !! length l = Some x.
Proof. by rewrite lookup_app_r, Nat.sub_diag. Qed.

Lemma insert_new {A} (l : list A) x y : <[length l := y]> (l ++ [x]) = l ++ [y].
Proof. by rewrite insert_app_r_alt, Nat.sub_diag. Qed.

(** Unfolds a straight-line function on both sides of an equation and
    follows the two runs, which read equal arrays and get equal answers
    from OpenCV. *)
Ltac walk Hext :=
  repeat first
    [ rewrite bind_run
    | progress unfold _error_if_image_empty, array_of, read, alloc, write, lift,
        raise, cv_call, returns_call
    | progress unfold mret, M_ret
    | rewrite lookup_new
    | rewrite insert_new
    | progress simpl
    | rewrite Hext
    | match goal with
      | H : heap _ !! _ = _ |- _ => rewrite H
      | H : ?h !! ?l = Some ?a |- context [(?h ++ ?k) !! ?l] =>
          rewrite (lookup_app_l_Some h k l a H)
      | |- context [decide ?P] => destruct (decide P)
      | |- context [match ?o ?c with Ok _ => _ | Raise _ => _ end] =>
          destruct (o c)
      | |- context [truediv ?a ?b] => destruct (truediv a b)
      end ].

Ltac unfold_functions :=
  unfold dilate, morph_open, morph_close, normalize, resize, bgr2gray,
    bgr2hsv, bgr2xyz, bgr2hls, bgr2luv, blur_gaussian, blur_median,
    threshold_otsu, threshold_binary, threshold_tozero,
    threshold_otsu_tozero, canny.

Lemma checked_functions_deterministic (opencv1 opencv2 : cv.impl) f s1 s2 l1 l2 x :
  (∀ c, opencv1 c = opencv2 c) →
  is_rotate_image f = false →
  heap s1 !! l1 = x → heap s2 !! l2 = x →
  observe (run opencv1 (ImageOp f (Some l1)) s1) =
  observe (run opencv2 (ImageOp f (Some l2)) s2).
Proof.
  intros Hext Hf Ha1 Ha2.
  destruct x as [a|];
    destruct f; try discriminate Hf; clear Hf; unfold run, apply_image_op;
    unfold_functions; walk Hext; reflexivity.
Qed.

Lemma checked_functions_none (opencv1 opencv2 : cv.impl) f s1 s2 :
  is_rotate_image f = false →
  observe (run opencv1 (ImageOp f None) s1) =
  observe (run opencv2 (ImageOp f None) s2).
Proof.
  intros Hf. destruct f; try discriminate Hf; reflexivity.
Qed.

(** *** The rules of agreement *)

Lemma agree_bind {A B} (R R' : state → state → Prop)
    (m1 m2 : M A) (f1 f2 : A → M B) s1 s2 :
  agree R (m1 s1) (m2 s2) →
  (∀ a t1 t2, R t1 t2 → agree R' (f1 a t1) (f2 a t2)) →
  agree R' ((m1 ≫= f1) s1) ((m2 ≫= f2) s2).
Proof.
  intros Hm Hf. rewrite !bind_run.
  destruct (m1 s1) as [[a1|e1] t1], (m2 s2) as [[a2|e2] t2]; simpl in *;
    try done.
  destruct Hm as [-> HR]. by apply Hf.
Qed.

Lemma agree_lift {A} (R : state → state → Prop) (r : result A) s1 s2 :
  R s1 s2 → agree R (lift r s1) (lift r s2).
Proof. intros HR. unfold lift. by destruct r. Qed.

Lemma agree_ret {A} (R : state → state → Prop) (a : A) s1 s2 :
  R s1 s2 → agree R ((mret a : M A) s1) ((mret a : M A) s2).
Proof. done. Qed.

Lemma agree_raise {A} (R : state → state → Prop) e s1 s2 :
  agree R (@raise A e s1) (@raise A e s2).
Proof. done. Qed.

Lemma agree_for_each {A} (R : state → state → Prop) (xs : list A)
    (body1 body2 : A → M unit) :
  (∀ x t1 t2, R t1 t2 → agree R (body1 x t1) (body2 x t2)) →
  ∀ s1 s2, R s1 s2 →
    agree R (for_each xs body1 s1) (for_each xs body2 s2).
Proof.
  intros Hb. induction xs as [|x xs IH]; intros s1 s2 HR; simpl.
  - done.
  - eapply agree_bind; [by apply Hb|]. intros _ t1 t2. apply IH.
Qed.

(** *** rotate_image *)

Lemma rotate_channel_agree (opencv1 opencv2 : cv.impl) l1 cp1 l2 cp2 M sh i s1 s2 :
  (∀ c, opencv1 c = opencv2 c) →
  same_image_and_copy l1 cp1 l2 cp2 s1 s2 →
  agree (same_image_and_copy l1 cp1 l2 cp2)
    (rotate_channel opencv1 l1 cp1 M sh i s1)
    (rotate_channel opencv2 l2 cp2 M sh i s2).
Proof.
  intros Hext (Hne1 & Hne2 & (a & Ha1 & Ha2) & (c & Hc1 & Hc2)).
  unfold rotate_channel.
  rewrite !(bind_ok _ _ _ _ _ (read_ok _ _ _ Ha1)).
  rewrite !(bind_ok _ _ _ _ _ (read_ok _ _ _ Ha2)).
  rewrite !bind_run. unfold lift at 1 3.
  destruct (np.get_last a i) as [ch|e]; [|done].
  rewrite !bind_run. unfold cv_call at 1 2. rewrite Hext.
  destruct (opencv2 _) as [r|e]; [|done]. simpl.
  rewrite !bind_run. unfold read at 1 2. simpl. rewrite Hc1, Hc2.
  rewrite !bind_run. unfold lift at 1 2.
  destruct (np.set_last c i r) as [c'|e]; [|done].
  unfold write. simpl. rewrite Hc1, Hc2. simpl. split; [done|].
  repeat split; try done.
  - exists a. simpl. by rewrite !list_lookup_insert_ne.
  - exists c'. simpl. split; apply list_lookup_insert_eq; by eapply lookup_lt_Some.
Qed.

Lemma rotate_image_run (opencv : cv.impl) center angle scale unit s l a :
  heap s !! l = Some a →
  let matrix_call := cv.getRotationMatrix2D center (to_degrees unit angle) scale in
  let s0 := State (heap s) (objects s) (calls s ++ [matrix_call]) in
  run opencv (ImageOp (RotateImage center angle scale unit) (Some l)) s =
    match opencv matrix_call with
    | Raise e => (Raise e, s0)
    | Ok M =>
        if decide (np.ndim a = 2) then
          match opencv (cv.warpAffine a M (reverse (np.shape a))) with
          | Ok r =>
              (Ok (VImage (length (heap s))),
               State (heap s ++ [r]) (objects s)
                 (calls s0 ++ [cv.warpAffine a M (reverse (np.shape a))]))
          | Raise e =>
              (Raise e,
               State (heap s) (objects s)
                 (calls s0 ++ [cv.warpAffine a M (reverse (np.shape a))]))
          end
        else if decide (np.ndim a = 3) then
          let t := State (heap s ++ [np.zeros_like a]) (objects s) (calls s0) in
          match np.last_extent a with
          | None => (Raise IndexError, t)
          | Some k =>
              match for_each (seq 0 k)
                      (rotate_channel opencv l (length (heap s)) M
                         (reverse (np.init_shape a))) t with
              | (Ok _, u) => (Ok (VImage (length (heap s))), u)
              | (Raise e, u) => (Raise e, u)
              end
          end
        else (Raise dimension_error, s0)
    end.
Proof.
  intros Ha matrix_call s0. unfold run, apply_image_op, rotate_image.
  rewrite !bind_run. unfold cv_call at 1. fold matrix_call.
  destruct (opencv matrix_call) as [M|e]; [|done]. simpl.
  rewrite !bind_run. unfold read at 1. simpl. rewrite Ha.
  destruct (decide (np.ndim a = 2)).
  { rewrite bind_run. unfold cv_call. simpl. by destruct (opencv _). }
  destruct (decide (np.ndim a = 3)); [|done].
  rewrite !bind_run. unfold alloc at 1. simpl.
  rewrite !bind_run. unfold read at 1. simpl. rewrite lookup_new.
  rewrite !bind_run.
  change (np.last_extent (np.zeros_like a)) with (np.last_extent a).
  destruct (np.last_extent a) as [k|]; [|done].
  unfold mret at 1, M_ret at 1. rewrite bind_run.
  by destruct (for_each _ _ _) as [[[]|e1] u1].
Qed.

Lemma rotate_image_deterministic (opencv1 opencv2 : cv.impl)
    center angle scale unit s1 s2 l1 l2 x :
  (∀ c, opencv1 c = opencv2 c) →
  heap s1 !! l1 = x → heap s2 !! l2 = x →
  observe (run opencv1 (ImageOp (RotateImage center angle scale unit) (Some l1)) s1) =
  observe (run opencv2 (ImageOp (RotateImage center angle scale unit) (Some l2)) s2).
Proof.
  intros Hext Ha1 Ha2. destruct x as [a|].
  2:{ unfold run, apply_image_op, rotate_image. walk Hext; reflexivity. }
  pose proof (rotate_image_run opencv1 center angle scale unit s1 l1 a Ha1) as H1.
  pose proof (rotate_image_run opencv2 center angle scale unit s2 l2 a Ha2) as H2.
  cbv zeta in H1, H2. rewrite H1, H2, Hext. clear H1 H2.
  destruct (opencv2 _) as [M|e]; [|done].
  destruct (decide (np.ndim a = 2)).
  { rewrite Hext. destruct (opencv2 _); [|done]. simpl. by rewrite !lookup_new. }
  destruct (decide (np.ndim a = 3)); [|done].
  destruct (np.last_extent a) as [k|]; [|done].
  set (t1 := State (heap s1 ++ _) _ _). set (t2 := State (heap s2 ++ _) _ _).
  assert (same_image_and_copy l1 (length (heap s1)) l2 (length (heap s2)) t1 t2)
    as HR.
  { apply lookup_lt_Some in Ha1 as Hlt1. apply lookup_lt_Some in Ha2 as Hlt2.
    repeat split; try lia.
    - exists a. simpl. split; by apply lookup_app_l_Some.
    - exists (np.zeros_like a). simpl. by rewrite !lookup_new. }
  pose proof (agree_for_each _ (seq 0 k) _ _
    (λ i u1 u2, rotate_channel_agree opencv1 opencv2 l1 (length (heap s1)) l2
                  (length (heap s2)) M (reverse (np.init_shape a)) i u1 u2 Hext)
    t1 t2 HR) as Hloop.
  destruct (for_each _ _ t1) as [[[]|e1] u1], (for_each _ _ t2) as [[[]|e2] u2];
    simpl in Hloop; try done; try (by subst).
  destruct Hloop as (_ & _ & _ & _ & (c & Hc1 & Hc2)).
  simpl. by rewrite Hc1, Hc2.
Qed.

Lemma rotate_image_none (opencv1 opencv2 : cv.impl) center angle scale unit s1 s2 :
  (∀ c, opencv1 c = opencv2 c) →
  observe (run opencv1 (ImageOp (RotateImage center angle scale unit) None) s1) =
  observe (run opencv2 (ImageOp (RotateImage center angle scale unit) None) s2).
Proof.
  intros Hext. unfold run, apply_image_op, rotate_image. walk Hext; reflexivity.
Qed.

(** *** scale_contour_to_rect *)

Lemma getitem_tuple_agree c1 c2 i j s1 s2 :
  same_points c1 c2 s1 s2 →
  agree (same_points c1 c2)
    (Contour.__getitem__ c1 (KTuple [i; j]) s1)
    (Contour.__getitem__ c2 (KTuple [i; j]) s2).
Proof.
  intros HR. pose proof HR as (o1 & o2 & Ho1 & Ho2 & _ & _ & a & Ha1 & Ha2).
  rewrite (getitem_tuple_run _ _ _ _ _ _ Ho1 Ha1).
  rewrite (getitem_tuple_run _ _ _ _ _ _ Ho2 Ha2).
  by destruct (np.getitem a _).
Qed.

Lemma setitem_tuple_agree c1 c2 i j v s1 s2 :
  same_points c1 c2 s1 s2 →
  agree (same_points c1 c2)
    (Contour.__setitem__ c1 (KTuple [i; j]) v s1)
    (Contour.__setitem__ c2 (KTuple [i; j]) v s2).
Proof.
  intros (o1 & o2 & Ho1 & Ho2 & Hm & Har & a & Ha1 & Ha2).
  rewrite (setitem_tuple_run_any _ _ _ _ _ _ _ Ho1 Ha1).
  rewrite (setitem_tuple_run_any _ _ _ _ _ _ _ Ho2 Ha2).
  destruct (np.setitem a _ v) as [a'|e]; [|done]. split; [done|].
  exists o1, o2. repeat split; try done. exists a'. simpl.
  split; apply list_lookup_insert_eq; by eapply lookup_lt_Some.
Qed.

Lemma scale_point_agree c1 c2 rect i s1 s2 :
  same_points c1 c2 s1 s2 →
  agree (same_points c1 c2) (scale_point c1 rect i s1) (scale_point c2 rect i s2).
Proof.
  intros HR. unfold scale_point.
  eapply agree_bind.
  { eapply agree_bind; [by apply getitem_tuple_agree|]. intros x t1 t2 HR1.
    eapply agree_bind; [by apply agree_lift|]. intros x' u1 u2 HR2.
    by apply setitem_tuple_agree. }
  intros _ t1 t2 HR1.
  eapply agree_bind; [by apply getitem_tuple_agree|]. intros y u1 u2 HR2.
  eapply agree_bind; [by apply agree_lift|]. intros y' v1 v2 HR3.
  by apply setitem_tuple_agree.
Qed.

Lemma scale_contour_to_rect_any (opencv : cv.impl) s c rect :
  run opencv (ScaleContourToRect c rect) s =
    match objects s !! c with
    | None => (Raise dangling, s)
    | Some o =>
        match moment o !! "m00" with
        | None => (Raise (KeyError "m00"), s)
        | Some v =>
            let c' := length (objects s) in
            let t := State (heap s)
                       (objects s ++ [ContourObj (points o) (moment o) v])
                       (calls s) in
            match heap s !! points o with
            | None => (Raise dangling, t)
            | Some a =>
                match np.len a with
                | Raise e => (Raise e, t)
                | Ok n =>
                    match for_each (seq 0 n) (scale_point c' rect) t with
                    | (Ok _, u) => (Ok (VContour c'), u)
                    | (Raise e, u) => (Raise e, u)
                    end
                end
            end
        end
    end.
Proof.
  unfold run, scale_contour_to_rect. rewrite !bind_run. unfold attrs at 1.
  destruct (objects s !! c) as [o|]; [|done].
  rewrite !bind_run. unfold Contour.__init__ at 1.
  rewrite !bind_run. unfold mret at 1, M_ret at 1.
  destruct (moment o !! "m00") as [v|]; [|done].
  unfold mret at 1, M_ret at 1, new.
  rewrite !bind_run. unfold Contour.__len__ at 1.
  rewrite !bind_run. unfold attrs at 1. cbn [objects]. rewrite lookup_new.
  rewrite !bind_run. unfold read at 1. cbn [heap points].
  destruct (heap s !! points o) as [a|]; [|done].
  unfold lift at 1. destruct (np.len a) as [n|e]; [|done].
  rewrite !bind_run. by destruct (for_each _ _ _) as [[[]|e] u].
Qed.

Lemma scale_contour_to_rect_deterministic (opencv1 opencv2 : cv.impl)
    c1 c2 rect s1 s2 :
  contour_view s1 c1 = contour_view s2 c2 →
  observe (run opencv1 (ScaleContourToRect c1 rect) s1) =
  observe (run opencv2 (ScaleContourToRect c2 rect) s2).
Proof.
  unfold contour_view. intros Hv. rewrite !scale_contour_to_rect_any.
  destruct (objects s1 !! c1) as [o1|], (objects s2 !! c2) as [o2|];
    try done.
  simpl in Hv. injection Hv as Hh Hm Hv. rewrite Hm, Hh.
  destruct (moment o2 !! "m00") as [v|]; [|done]. cbv zeta.
  destruct (heap s2 !! points o2) as [a|] eqn:Ha2; [|done].
  destruct (np.len a) as [n|e]; [|done].
  set (t1 := State (heap s1) _ _). set (t2 := State (heap s2) _ _).
  assert (same_points (length (objects s1)) (length (objects s2)) t1 t2) as HR.
  { eexists _, _. simpl. rewrite !lookup_new. repeat (split; [done|]).
    by exists a. }
  pose proof (agree_for_each _ (seq 0 n) _ _
    (λ i u1 u2, scale_point_agree (length (objects s1)) (length (objects s2))
                  rect i u1 u2) t1 t2 HR) as Hloop.
  destruct (for_each _ _ t1) as [[[]|e1] u1], (for_each _ _ t2) as [[[]|e2] u2];
    simpl in Hloop; try done; try (by subst).
  destruct Hloop as (_ & o1' & o2' & Ho1 & Ho2 & Hm' & Har' & a' & Ha1' & Ha2').
  simpl. unfold contour_view. rewrite Ho1, Ho2. simpl.
  by rewrite Ha1', Ha2', Hm', Har'.
Qed.

(** C7.  What a call of an exported function gives back (the exception, or
    the returned array or contour by value) is determined by the function,
    its arguments by value and the behaviour of OpenCV: two calls with
    equal arguments, made in any two states, against implementations of
    OpenCV that answer every call alike, have the same outcome.  The two
    states may differ in every other array and object, in where the
    arguments live and in the calls made so far, so nothing that an earlier
    call left behind is read. *)
Theorem operations_are_deterministic (opencv1 opencv2 : cv.impl) o1 o2 s1 s2 :
  (∀ c, opencv1 c = opencv2 c) →
  view_operation s1 o1 = view_operation s2 o2 →
  observe (run opencv1 o1 s1) = observe (run opencv2 o2 s2).
Proof.
  intros Hext Hv.
  destruct o1 as [f1 image1|c1 rect1], o2 as [f2 image2|c2 rect2];
    simpl in Hv; try discriminate.
  - injection Hv as -> Himg.
    destruct image1 as [l1|], image2 as [l2|]; simpl in Himg; try discriminate.
    + injection Himg as Himg.
      destruct (is_rotate_image f2) eqn:Hf.
      * destruct f2; try discriminate Hf.
        by eapply rotate_image_deterministic.
      * by eapply checked_functions_deterministic.
    + destruct (is_rotate_image f2) eqn:Hf.
      * destruct f2; try discriminate Hf. by apply rotate_image_none.
      * by apply checked_functions_none.
  - injection Hv as Hc ->. by apply scale_contour_to_rect_deterministic.
Qed.

(** The same call before and after another call has been made. *)
Lemma operations_are_deterministic_witness :
  let first := ImageOp (Dilate 3 RECT) (Some 0) in
  let again := ImageOp (RotateImage (1%float, 1%float) 0.5 1 RADIANS) (Some 1) in
  let later := (run identity_opencv first example_state).2 in
  later ≠ example_state
  ∧ observe (run identity_opencv again example_state) =
    observe (run identity_opencv again later).
Proof.
  intros first again later. split; [discriminate|].
  exact (operations_are_deterministic identity_opencv identity_opencv again
           again example_state later (λ c, eq_refl) eq_refl).
Defined.

(** * Further properties of the module *)

(** ** Which images pass the emptiness check *)

Lemma numel_zero sh : np.numel sh = 0 ↔ 0 ∈ sh.
Proof.
  induction sh as [|d sh IH]; simpl.
  - split; [lia|]. by intros ?%elem_of_nil.
  - rewrite elem_of_cons, <- IH. split.
    + intros H. apply Nat.eq_mul_0 in H. destruct H as [->|H]; [by left|by right].
    + intros [<-|H]; [done|]. rewrite H. lia.
Qed.

(** X1.  [_error_if_image_empty] lets an image through exactly when it is
    a reference to an array none of whose extents is 0, and raises
    [ValueError("Image is empty")] exactly when the image is [None] or an
    array with an extent 0, whatever the number of dimensions.  It never
    changes anything. *)
Theorem error_if_image_empty_decides image s :
  (_error_if_image_empty image s).2 = s
  ∧ ((_error_if_image_empty image s).1 = Ok tt ↔
       ∃ l a, image = Some l ∧ heap s !! l = Some a ∧ 0 ∉ np.shape a)
  ∧ ((_error_if_image_empty image s).1 = Raise image_is_empty ↔
       image = None
       ∨ ∃ l a, image = Some l ∧ heap s !! l = Some a ∧ 0 ∈ np.shape a).
Proof.
  destruct image as [l|]; simpl.
  2:{ split; [done|]. split; split; try done.
      - by intros (? & ? & ? & _).
      - by left. }
  rewrite bind_run. unfold read. destruct (heap s !! l) as [a|] eqn:Ha.
  2:{ simpl. split; [done|]. split; split; try done.
      - intros (? & ? & ? & ? & _). by simplify_eq.
      - intros [?|(? & ? & ? & ? & _)]; by simplify_eq. }
  unfold np.size. destruct (decide (np.numel (np.shape a) = 0)) as [Hz|Hz];
    rewrite numel_zero in Hz; simpl.
  - split; [done|]. split; split; try done.
    + intros (l' & a' & ? & ? & ?). by simplify_eq.
    + intros _. right. by exists l, a.
  - split; [done|]. split; split; try done.
    + intros _. by exists l, a.
    + intros [?|(l' & a' & ? & ? & ?)]; by simplify_eq.
Qed.

(** ** resize *)

(** The reciprocal of an integer never overflows: [1 / factor] is the
    double nearest to the exact quotient, or [ZeroDivisionError]. *)
Lemma truediv_one factor :
  truediv 1 factor =
    if decide (factor = 0%Z) then Raise ZeroDivisionError
    else Ok (nearest_double 1 factor).
Proof.
  unfold truediv. case_decide; [done|]. rewrite decide_False; [done|].
  assert (1 < double_overflow)%Z by done.
  change (Z.abs 1) with 1%Z. nia.
Qed.

(** X2.  On an image that is not empty, [resize] with factor 0 raises
    [ZeroDivisionError] without calling OpenCV or changing anything; with
    any other factor it makes the one call [cv.resize(image, None, fx, fy,
    INTER_CUBIC)] with [fx = fy = 1 / factor], the double nearest to the
    reciprocal of the factor, and returns its result. *)
Theorem resize_divides (opencv : cv.impl) s l a factor :
  heap s !! l = Some a → np.size a ≠ 0 →
  (factor = 0%Z → resize opencv (Some l) factor s = (Raise ZeroDivisionError, s))
  ∧ (factor ≠ 0%Z →
     let f := nearest_double 1 factor in
     truediv 1 factor = Ok f
     ∧ resize opencv (Some l) factor s =
         returns_call opencv (cv.resize a None f f cv.INTER_CUBIC) id s).
Proof.
  intros Ha Hsz. unfold resize.
  rewrite (bind_ok _ _ _ _ _ (error_if_image_empty_passes _ _ _ Ha Hsz)).
  split.
  - intros ->. reflexivity.
  - intros Hf. rewrite !truediv_one, !decide_False by done.
    split; [done|].
    rewrite !bind_run. unfold lift at 1 2. simpl.
    rewrite !bind_run. simpl. unfold read. rewrite Ha.
    rewrite bind_run. unfold cv_call, returns_call. simpl.
    by destruct (opencv _).
Qed.

Lemma resize_divides_witness :
  resize identity_opencv (Some 0) 0 example_state
    = (Raise ZeroDivisionError, example_state)
  ∧ resize identity_opencv (Some 0) 2 example_state =
      (Ok 4,
       State [grey_2x3; colour_2x2; no_samples; triangle; grey_2x3]
         (objects example_state)
         [cv.resize grey_2x3 None 0.5 0.5 cv.INTER_CUBIC])
  ∧ resize identity_opencv (Some 0) (2 ^ 53 + 1) example_state =
      (Ok 4,
       State [grey_2x3; colour_2x2; no_samples; triangle; grey_2x3]
         (objects example_state)
         [cv.resize grey_2x3 None 0x1.fffffffffffffp-54 0x1.fffffffffffffp-54
            cv.INTER_CUBIC]).
Proof.
  pose proof (resize_divides identity_opencv example_state 0 grey_2x3) as H.
  destruct (H 0%Z eq_refl (λ H : np.size grey_2x3 = 0, O_S 5 (eq_sym H)))
    as [Hzero _].
  destruct (H 2%Z eq_refl (λ H : np.size grey_2x3 = 0, O_S 5 (eq_sym H)))
    as [_ Htwo].
  destruct (H (2 ^ 53 + 1)%Z eq_refl
              (λ H : np.size grey_2x3 = 0, O_S 5 (eq_sym H)))
    as [_ Hbig].
  split; [exact (Hzero eq_refl)|]. split.
  - exact (proj2 (Htwo ltac:(done))).
  - exact (proj2 (Hbig ltac:(done))).
Defined.

(** ** What the image functions leave alone *)

Lemma for_each_invariant {A} (P : state → Prop) (xs : list A) (body : A → M unit) :
  (∀ x t, P t → P (body x t).2) →
  ∀ s, P s → P (for_each xs body s).2.
Proof.
  intros Hb. induction xs as [|x xs IH]; intros s Hs; simpl; [done|].
  rewrite bind_run. specialize (Hb x s Hs).
  destruct (body x s) as [[[]|e] t]; simpl in *; [by apply IH|done].
Qed.

Lemma rotate_channel_keeps (opencv : cv.impl) h objs l M sh i t :
  arrays_then_copy h objs t →
  arrays_then_copy h objs (rotate_channel opencv l (length h) M sh i t).2.
Proof.
  intros [[c Hh] Ho]. unfold rotate_channel.
  rewrite bind_run. unfold read at 1.
  destruct (heap t !! l) as [a|]; simpl; [|by split; eauto].
  rewrite bind_run. unfold lift at 1.
  destruct (np.get_last a i) as [ch|e]; simpl; [|by split; eauto].
  rewrite bind_run. unfold cv_call at 1.
  destruct (opencv _) as [r|e]; simpl; [|by split; eauto].
  rewrite bind_run. unfold read at 1. simpl. rewrite Hh, lookup_new.
  rewrite bind_run. unfold lift at 1.
  destruct (np.set_last c i r) as [c'|e]; simpl; [|by split; eauto].
  unfold write. simpl. rewrite lookup_new. simpl.
  rewrite insert_new. by split; eauto.
Qed.

Ltac walk_one :=
  repeat first
    [ rewrite bind_run
    | progress unfold _error_if_image_empty, array_of, read, alloc, write, lift,
        raise, cv_call, returns_call
    | progress unfold mret, M_ret
    | rewrite lookup_new
    | rewrite insert_new
    | progress simpl
    | match goal with
      | H : heap _ !! _ = _ |- _ => rewrite H
      | H : ?h !! ?l = Some ?a |- context [(?h ++ ?k) !! ?l] =>
          rewrite (lookup_app_l_Some h k l a H)
      | |- context [decide ?P] => destruct (decide P)
      | |- context [match ?o ?c with Ok _ => _ | Raise _ => _ end] =>
          destruct (o c)
      | |- context [truediv ?a ?b] => destruct (truediv a b)
      end ].

Ltac kept :=
  unfold keeps_arrays; simpl; split;
  [ first [ by (exists []; rewrite app_nil_r) | by eexists ]
  | split; [done|]; intros ? H;
    first [ discriminate H
          | injection H as <-; rewrite ?length_app; simpl; split; [done|lia] ] ].

(** X3.  No image function of the module writes to an array or an object
    that existed before the call: whatever the function, its arguments and
    the outcome (also when it raises), the arrays that were there are
    still there with their contents, followed only by arrays made during the
    call, and the [Contour] objects are untouched.  In particular the input
    image is never modified.  When the function returns, the array it
    returns is one of the new ones. *)
Theorem image_functions_keep_arrays (opencv : cv.impl) (f : image_op) image s :
  keeps_arrays s (apply_image_op opencv f image s).
Proof.
  destruct (is_rotate_image f) eqn:Hf.
  - destruct f; try discriminate Hf. simpl. unfold rotate_image.
    rewrite bind_run. unfold cv_call at 1.
    destruct (opencv _) as [M|e]; simpl; [|kept].
    destruct image as [l|]; [|kept].
    rewrite bind_run. unfold read at 1. simpl.
    destruct (heap s !! l) as [a|] eqn:Ha; [|kept].
    destruct (decide (np.ndim a = 2)); [walk_one; kept|].
    destruct (decide (np.ndim a = 3)); [|kept].
    rewrite bind_run. unfold alloc at 1. simpl.
    rewrite bind_run. unfold read at 1. simpl. rewrite lookup_new.
    rewrite bind_run.
    destruct (np.last_extent (np.zeros_like a)) as [k|]; [|kept].
    unfold mret at 1, M_ret at 1. rewrite bind_run.
    match goal with |- context [for_each ?xs ?body ?t] =>
      pose proof (for_each_invariant (arrays_then_copy (heap s) (objects s))
        xs body
        (λ x u, rotate_channel_keeps opencv (heap s) (objects s) l M _ x u) t)
        as Hloop;
      destruct (for_each xs body t) as [[[]|e'] u]
    end; simpl in *;
      (destruct Hloop as [[c Hc] Ho]; [by split; eauto|]);
      unfold keeps_arrays; simpl; rewrite Hc; kept.
  - destruct image as [l|]; [destruct (heap s !! l) as [a|] eqn:Ha|];
      destruct f; try discriminate Hf; simpl; unfold_functions;
      walk_one; kept.
Qed.

(** ** What the checked functions return and raise *)

Ltac walk_eqn :=
  repeat first
    [ rewrite bind_run
    | progress unfold _error_if_image_empty, array_of, read, alloc, write, lift,
        raise, cv_call, returns_call
    | progress unfold mret, M_ret
    | rewrite lookup_new
    | rewrite insert_new
    | progress simpl
    | match goal with
      | H : heap _ !! _ = _ |- _ => rewrite H
      | H : ?h !! ?l = Some ?a |- context [(?h ++ ?k) !! ?l] =>
          rewrite (lookup_app_l_Some h k l a H)
      | |- context [decide ?P] => destruct (decide P)
      | |- context [match ?o ?c with Ok _ => _ | Raise _ => _ end] =>
          destruct (o c) eqn:?
      | |- context [truediv ?a ?b] => destruct (truediv a b) eqn:?
      end ].

Ltac last_call :=
  first
    [ match goal with
      | |- context [(calls ?s ++ [?c1]) ++ [?c2]] =>
          solve [ exists [c1], c2; eexists; rewrite <- app_assoc;
                  repeat split; simpl; eauto
                | right; exists [c1], c2; rewrite <- app_assoc;
                  repeat split; simpl; eauto ]
      end
    | match goal with
      | |- context [calls ?s ++ [?c]] =>
          solve [ exists [], c; eexists; repeat split; simpl; eauto
                | right; exists [], c; repeat split; simpl; eauto ]
      end
    | match goal with
      | H : truediv _ _ = Raise _ |- _ =>
          left; rewrite truediv_one in H; case_decide; by simplify_eq
      end ].

(** X4.  On an image that is not empty, a function of the module other
    than [rotate_image] adds nothing of its own to what OpenCV does.  When
    it returns, the array returned is, sample for sample, the image that its
    last OpenCV call returned; when it raises, the exception is the one its
    last OpenCV call raised, the only exception of the module's own being
    the [ZeroDivisionError] of [resize] with factor 0, raised before any
    call.  At most one call (the structuring element) precedes the last. *)
Theorem checked_functions_pass_through (opencv : cv.impl) (f : image_op) l a s :
  is_rotate_image f = false →
  heap s !! l = Some a → np.size a ≠ 0 →
  match apply_image_op opencv f (Some l) s with
  | (Ok l', s') =>
      ∃ before c r,
        calls s' = calls s ++ before ++ [c] ∧ length before ≤ 1
        ∧ opencv c = Ok r ∧ heap s' !! l' = image_of c r
  | (Raise e, s') =>
      (e = ZeroDivisionError ∧ f = Resize 0 ∧ s' = s)
      ∨ ∃ before c,
          calls s' = calls s ++ before ++ [c] ∧ length before ≤ 1
          ∧ opencv c = Raise e
  end.
Proof.
  intros Hf Ha Hsz.
  destruct f; try discriminate Hf; simpl; unfold_functions; walk_eqn;
    try done; last_call.
Qed.

Lemma checked_functions_pass_through_witness :
  ∃ c r,
    calls (apply_image_op identity_opencv (MorphClose 3 2) (Some 1) example_state).2
      = [cv.getStructuringElement cv.MORPH_RECT (3, 3)%Z; c]
    ∧ identity_opencv c = Ok r
    ∧ heap (apply_image_op identity_opencv (MorphClose 3 2) (Some 1)
              example_state).2 !! 4 = image_of c r.
Proof.
  pose proof (checked_functions_pass_through identity_opencv (MorphClose 3 2)
                1 colour_2x2 example_state eq_refl eq_refl
                (λ H : np.size colour_2x2 = 0, O_S 11 (eq_sym H))) as H.
  simpl in H. destruct H as (before & c & r & Hlog & Hlen & Hc & Himg).
  destruct before as [|c0 [|c1 before]]; [discriminate Hlog| |simpl in Hlen; lia].
  injection Hlog as <- <-. by exists _, r.
Defined.

(** ** Contour: keys, reading and writing *)

(** X5.  A tuple key of a [Contour] must have exactly two elements.  With
    fewer, reading and writing both raise [IndexError] (from [key[0]] or
    [key[1]]); with more, both raise [ValueError("Too many indices: n")].
    In neither case is the points array read or written. *)
Theorem contour_tuple_key_arity s c o ks value :
  objects s !! c = Some o →
  (length ks < 2 →
     Contour.__getitem__ c (KTuple ks) s = (Raise IndexError, s)
     ∧ Contour.__setitem__ c (KTuple ks) value s = (Raise IndexError, s))
  ∧ (2 < length ks →
     Contour.__getitem__ c (KTuple ks) s =
       (Raise (ValueError ("Too many indices: " +:+ pretty (length ks))), s)
     ∧ Contour.__setitem__ c (KTuple ks) value s =
       (Raise (ValueError ("Too many indices: " +:+ pretty (length ks))), s)).
Proof.
  intros Hc. split; intros Hlen; split.
  - unfold Contour.__getitem__.
    rewrite bind_run. unfold lift at 1. simpl.
    rewrite decide_False by lia.
    rewrite (bind_ok _ _ _ _ _ (attrs_ok _ _ _ Hc)).
    rewrite bind_run. unfold lift at 1.
    destruct ks as [|k0 [|k1 ks]]; simpl in *; [done|done|lia].
  - unfold Contour.__setitem__.
    rewrite bind_run. unfold mret at 1, M_ret at 1.
    rewrite bind_run. unfold lift at 1. simpl.
    rewrite decide_False by lia.
    rewrite (bind_ok _ _ _ _ _ (attrs_ok _ _ _ Hc)).
    rewrite bind_run. unfold lift at 1.
    destruct ks as [|k0 [|k1 ks]]; simpl in *; [done|done|lia].
  - unfold Contour.__getitem__.
    rewrite bind_run. unfold lift at 1. simpl.
    by rewrite decide_True by lia.
  - unfold Contour.__setitem__.
    rewrite bind_run. unfold mret at 1, M_ret at 1.
    rewrite bind_run. unfold lift at 1. simpl.
    by rewrite decide_True by lia.
Qed.

Lemma contour_tuple_key_arity_witness :
  Contour.__getitem__ 0 (KTuple [1%Z]) example_state
    = (Raise IndexError, example_state)
  ∧ Contour.__setitem__ 0 (KTuple [1%Z]) (np.py_int 0) example_state
    = (Raise IndexError, example_state).
Proof.
  destruct (contour_tuple_key_arity example_state 0
              (ContourObj 3 {["m00" := 8%float]} 8%float) [1%Z]
              (np.py_int 0) eq_refl) as [Hshort _].
  apply Hshort. simpl. lia.
Defined.

(** X6.  Reading a [Contour] is read-only: for every key and every
    state, [len(c)] and [c[key]] leave the arrays, the objects and the log
    of OpenCV calls as they were, also when they raise. *)
Theorem contour_reads_change_nothing c k s :
  (Contour.__len__ c s).2 = s ∧ (Contour.__getitem__ c k s).2 = s.
Proof.
  split.
  - unfold Contour.__len__, mbind, M_bind, attrs, read, lift.
    by repeat case_match; simplify_eq.
  - unfold Contour.__getitem__, mbind, M_bind, attrs, read, lift, raise.
    by repeat case_match; simplify_eq.
Qed.

(** X7.  A [Contour] cannot be built from moments without an entry
    [m00]: the constructor raises [KeyError("m00")] and no object is made,
    whether the dictionary was supplied or came from [cv.moments]. *)
Theorem contour_needs_m00 (opencv : cv.impl) s pts a (m : gmap string float) :
  m !! "m00" = None →
  heap s !! pts = Some a →
  Contour.__init__ opencv pts (Some m) s = (Raise (KeyError "m00"), s)
  ∧ (opencv (cv.moments a) = Ok m →
     Contour.__init__ opencv pts None s =
       (Raise (KeyError "m00"),
        State (heap s) (objects s) (calls s ++ [cv.moments a]))).
Proof.
  intros Hm Ha. split.
  - unfold Contour.__init__. rewrite !bind_run. unfold mret at 1, M_ret at 1.
    by rewrite Hm.
  - intros Hcv. unfold Contour.__init__. rewrite !bind_run.
    rewrite (read_ok _ _ _ Ha). unfold cv_call. rewrite Hcv. by rewrite Hm.
Qed.

Lemma contour_needs_m00_witness :
  Contour.__init__ identity_opencv 3 (Some {["m10" := 1%float]}) example_state
    = (Raise (KeyError "m00"), example_state).
Proof.
  exact (proj1 (contour_needs_m00 identity_opencv example_state 3 triangle
                  {["m10" := 1%float]} eq_refl eq_refl)).
Defined.

(** X8.  Writing one coordinate of a contour and reading coordinates
    back.  On a contour of [n] points of an integer type [t], the
    assignment [c[(i, j)] = v] of a Python [int] that is a value of [t]
    returns; after it [c[(i, j)]] is [v], every other coordinate
    [c[(i', j')]] is what it was, and nothing but the points array has
    changed (no object, no OpenCV call, no other array).  A Python [int]
    that is no value of [t] raises [OverflowError], and nothing is
    written. *)
Theorem contour_write_then_read s c o t n d (i j i' j' : nat) v :
  objects s !! c = Some o →
  heap s !! points o = Some (np.NdArray t [n; 1; 2] d) →
  length d = 2 * n →
  i < n → j < 2 → i' < n → j' < 2 →
  let key := KTuple [Z.of_nat i; Z.of_nat j] in
  let key' := KTuple [Z.of_nat i'; Z.of_nat j'] in
  (np.in_range t v →
   ∃ s',
     Contour.__setitem__ c key (np.py_int v) s = (Ok tt, s')
     ∧ (Contour.__getitem__ c key' s').1 =
         (if decide (i' = i ∧ j' = j) then Ok (np.NdArray t [] [v])
          else (Contour.__getitem__ c key' s).1)
     ∧ objects s' = objects s ∧ calls s' = calls s
     ∧ ∀ l, l ≠ points o → heap s' !! l = heap s !! l)
  ∧ (¬ np.in_range t v →
     Contour.__setitem__ c key (np.py_int v) s = (Raise OverflowError, s)).
Proof.
  intros Hc Ha Hd Hi Hj Hi' Hj' key key'. split.
  2:{ intros Hv. unfold key.
      rewrite (setitem_tuple_run_any _ _ _ _ _ _ _ Hc Ha).
      unfold np.setitem. cbn [np.shape np.dtype].
      rewrite offset_point by done. by rewrite assigned_py_int_overflow. }
  intros Hv. eexists. split.
  { apply (setitem_tuple_run _ _ _ _ _ _ _
             (np.NdArray t [n; 1; 2] (<[2 * i + j := v]> d)) Hc Ha).
    apply setitem_coord; [lia..|]. by apply assigned_py_int. }
  set (s' := State _ _ _).
  assert (objects s' !! c = Some o) as Hc' by done.
  assert (heap s' !! points o =
            Some (np.NdArray t [n; 1; 2] (<[2 * i + j := v]> d))) as Ha'.
  { simpl. apply list_lookup_insert_eq. by eapply lookup_lt_Some. }
  split; [|split; [done|split; [done|]]].
  - unfold key'. rewrite (getitem_tuple_run _ _ _ _ _ _ Hc' Ha').
    rewrite (getitem_tuple_run _ _ _ _ _ _ Hc Ha). simpl.
    destruct (lookup_lt_is_Some_2 d (2 * i' + j')) as [x Hx]; [lia|].
    case_decide as Hsame.
    + destruct Hsame as [-> ->].
      apply getitem_coord; [done..|]. apply list_lookup_insert_eq. lia.
    + rewrite (getitem_coord t n d i' j' x) by done.
      apply getitem_coord; [done..|].
      rewrite list_lookup_insert_ne; [done|]. intros Heq.
      apply Hsame. lia.
  - intros l Hl. simpl. by apply list_lookup_insert_ne.
Qed.

Lemma contour_write_then_read_witness :
  ∃ s',
    Contour.__setitem__ 0 (KTuple [1; 1]%Z) (np.py_int 0) example_state
      = (Ok tt, s')
    ∧ (Contour.__getitem__ 0 (KTuple [1; 1]%Z) s').1
      = Ok (np.NdArray np.int32 [] [0%Z])
    ∧ (Contour.__getitem__ 0 (KTuple [1; 0]%Z) s').1
      = Ok (np.NdArray np.int32 [] [9%Z])
    ∧ Contour.__setitem__ 0 (KTuple [1; 1]%Z) (np.py_int 2147483648)
        example_state = (Raise OverflowError, example_state).
Proof.
  pose proof (contour_write_then_read example_state 0
                (ContourObj 3 {["m00" := 8%float]} 8%float) np.int32 3
                [5; 7; 9; 7; 5; 11]%Z 1 1) as H.
  destruct (H 1 1 0%Z eq_refl eq_refl eq_refl) as [Hin _]; [lia..|].
  destruct (H 1 0 0%Z eq_refl eq_refl eq_refl) as [Hin2 _]; [lia..|].
  destruct (H 1 1 2147483648%Z eq_refl eq_refl eq_refl) as [_ Hout]; [lia..|].
  destruct Hin as (s1 & Hset & Hget & _); [done|].
  destruct Hin2 as (s2 & Hset2 & Hget2 & _); [done|].
  exists s1. split; [exact Hset|]. split; [exact Hget|].
  split; [|apply Hout; by intros [_ ?]].
  simpl in Hset, Hset2. rewrite Hset in Hset2. injection Hset2 as <-.
  exact Hget2.
Defined.

(** X9.  Integer keys of a [Contour] follow Python's rule on the first
    axis: on a contour of [n] points an index [i] with [0 <= i < n] and the
    index [i - n] read the same point and the same coordinates, and an
    index outside [-n, n) raises [IndexError]. *)
Theorem contour_index_from_the_end s c o a n rest (i : Z) :
  objects s !! c = Some o → heap s !! points o = Some a →
  np.shape a = n :: rest →
  ((0 ≤ i < Z.of_nat n)%Z →
     Contour.__getitem__ c (KInt (i - Z.of_nat n)) s = Contour.__getitem__ c (KInt i) s
     ∧ ∀ j, Contour.__getitem__ c (KTuple [(i - Z.of_nat n)%Z; j]) s
            = Contour.__getitem__ c (KTuple [i; j]) s)
  ∧ ((i < - Z.of_nat n ∨ Z.of_nat n ≤ i)%Z →
     Contour.__getitem__ c (KInt i) s = (Raise IndexError, s)
     ∧ ∀ j, Contour.__getitem__ c (KTuple [i; j]) s = (Raise IndexError, s)).
Proof.
  intros Hc Ha Hsh. split.
  - intros Hi.
    assert (np.norm_index n (i - Z.of_nat n) = np.norm_index n i) as Hn.
    { unfold np.norm_index. rewrite decide_False by lia.
      rewrite decide_True by lia. rewrite decide_True by lia.
      f_equal. lia. }
    split; [|intros j].
    + rewrite !(getitem_int_run _ _ _ _ _ Hc Ha). f_equal.
      unfold np.getitem. rewrite Hsh. simpl. by rewrite Hn.
    + rewrite !(getitem_tuple_run _ _ _ _ _ _ Hc Ha). f_equal.
      unfold np.getitem. rewrite Hsh. simpl. by rewrite Hn.
  - intros Hi.
    assert (np.norm_index n i = None) as Hn.
    { unfold np.norm_index. by rewrite !decide_False by lia. }
    split; [|intros j].
    + rewrite (getitem_int_run _ _ _ _ _ Hc Ha).
      unfold np.getitem. rewrite Hsh. simpl. by rewrite Hn.
    + rewrite (getitem_tuple_run _ _ _ _ _ _ Hc Ha).
      unfold np.getitem. rewrite Hsh. simpl. by rewrite Hn.
Qed.

Lemma contour_index_from_the_end_witness :
  Contour.__getitem__ 0 (KInt (-1)) example_state
    = Contour.__getitem__ 0 (KInt 2) example_state
  ∧ Contour.__getitem__ 0 (KInt 3) example_state
    = (Raise IndexError, example_state).
Proof.
  destruct (contour_index_from_the_end example_state 0
              (ContourObj 3 {["m00" := 8%float]} 8%float) triangle 3 [1; 2] 2
              eq_refl eq_refl eq_refl) as [Hin _].
  destruct (contour_index_from_the_end example_state 0
              (ContourObj 3 {["m00" := 8%float]} 8%float) triangle 3 [1; 2] 3
              eq_refl eq_refl eq_refl) as [_ Hout].
  split.
  - apply Hin. lia.
  - apply Hout. lia.
Defined.

(** ** scale_contour_to_rect as a translation *)

Lemma shifted_compose t rx1 ry1 rx2 ry2 lo hi d :
  shifted t rx2 ry2 lo hi (shifted t rx1 ry1 lo hi d) =
    shifted t (rx1 + rx2) (ry1 + ry2) lo hi d.
Proof.
  apply list_eq. intros p. rewrite !shifted_lookup.
  destruct (d !! p) as [x|]; unfold fmap, option_fmap, option_map; [|done].
  f_equal. case_decide; [|done]. destruct (Nat.even p); apply wrap_sub_wrap.
Qed.

Lemma shifted_origin t lo hi d :
  Forall (np.in_range t) d → shifted t 0 0 lo hi d = d.
Proof.
  intros Hd. apply list_eq. intros p. rewrite shifted_lookup.
  destruct (d !! p) as [x|] eqn:Hx; unfold fmap, option_fmap, option_map; [|done].
  f_equal. case_decide; [|done].
  assert (np.in_range t x) by (by eapply Forall_lookup_1).
  destruct (Nat.even p); rewrite Z.sub_0_r; by apply wrap_in_range.
Qed.

(** X10.  Calls of [scale_contour_to_rect] compose like translations,
    also where the arithmetic of the type [t] of the points wraps around.
    With rectangles [r1] and [r2] whose coordinates are values of [t],
    scaling a contour to [r1] and the result to [r2] returns twice.  When
    the sums [r1.x + r2.x] and [r1.y + r2.y] are values of [t] too, one
    call with the rectangle at the sums returns and leaves every array as
    the two calls do; when one of them is not and the contour has a
    point, that one call raises [OverflowError].  When the two rectangles
    cancel, the points, if they were values of [t], are back where they
    started: scaling to the rectangle at [(-r.x, -r.y)] undoes scaling to
    [r]. *)
Theorem scale_contour_to_rect_composes (opencv : cv.impl) s c o t n d r1 r2 :
  objects s !! c = Some o →
  heap s !! points o = Some (np.NdArray t [n; 1; 2] d) →
  length d = 2 * n → is_Some (moment o !! "m00") →
  np.in_range t (rect_x r1) → np.in_range t (rect_y r1) →
  np.in_range t (rect_x r2) → np.in_range t (rect_y r2) →
  let r12 := {| rect_x := rect_x r1 + rect_x r2;
                rect_y := rect_y r1 + rect_y r2 |} in
  ∃ c1 s1 c2 s2,
    scale_contour_to_rect opencv c r1 s = (Ok c1, s1)
    ∧ scale_contour_to_rect opencv c1 r2 s1 = (Ok c2, s2)
    ∧ (np.in_range t (rect_x r12) → np.in_range t (rect_y r12) →
       ∃ c12 s12,
         scale_contour_to_rect opencv c r12 s = (Ok c12, s12)
         ∧ heap s2 = heap s12)
    ∧ (0 < n → ¬ (np.in_range t (rect_x r12) ∧ np.in_range t (rect_y r12)) →
       (scale_contour_to_rect opencv c r12 s).1 = Raise OverflowError)
    ∧ ((rect_x r1 + rect_x r2 = 0)%Z → (rect_y r1 + rect_y r2 = 0)%Z →
       Forall (np.in_range t) d → heap s2 = heap s).
Proof.
  intros Hc Ha Hd [v Hm] Hx1 Hy1 Hx2 Hy2 r12.
  assert (points o < length (heap s)) as Hp by (by eapply lookup_lt_Some).
  set (o' := ContourObj (points o) (moment o) v).
  set (d1 := shifted t (rect_x r1) (rect_y r1) 0 (2 * n) d).
  set (s1 := State (<[points o := np.NdArray t [n; 1; 2] d1]> (heap s))
               (objects s ++ [o']) (calls s)).
  assert (objects s1 !! length (objects s) = Some o') as Hc1.
  { simpl. by rewrite lookup_new. }
  assert (heap s1 !! points o' = Some (np.NdArray t [n; 1; 2] d1)) as Ha1.
  { simpl. by apply list_lookup_insert_eq. }
  assert (length d1 = 2 * n) as Hd1 by (subst d1; by rewrite shifted_length).
  eexists _, s1, _, _.
  split; [by apply (scale_contour_to_rect_run opencv s c o t n d v r1)|].
  split; [by apply (scale_contour_to_rect_run opencv s1 _ o' t n d1 v r2)|].
  simpl. rewrite list_insert_insert_eq. subst d1. rewrite shifted_compose.
  split; [|split].
  - intros Hx12 Hy12. eexists _, _.
    split; [by apply (scale_contour_to_rect_run opencv s c o t n d v r12)|].
    done.
  - intros Hn Hout. by eapply scale_contour_to_rect_overflow.
  - intros -> -> Htyped. rewrite shifted_origin by done.
    by apply list_insert_id.
Qed.

Lemma scale_contour_to_rect_composes_witness :
  ∃ c1 s1 c2 s2,
    scale_contour_to_rect identity_opencv 0 {| rect_x := 5; rect_y := 7 |}
      example_state = (Ok c1, s1)
    ∧ scale_contour_to_rect identity_opencv c1 {| rect_x := -5; rect_y := -7 |}
        s1 = (Ok c2, s2)
    ∧ heap s2 = heap example_state.
Proof.
  destruct (scale_contour_to_rect_composes identity_opencv example_state 0
              (ContourObj 3 {["m00" := 8%float]} 8%float) np.int32 3
              [5; 7; 9; 7; 5; 11]%Z
              {| rect_x := 5; rect_y := 7 |} {| rect_x := -5; rect_y := -7 |}
              eq_refl eq_refl eq_refl (ex_intro _ 8%float eq_refl))
    as (c1 & s1 & c2 & s2 & H1 & H2 & _ & _ & Hback); [by vm_compute..|].
  exists c1, s1, c2, s2. split; [exact H1|]. split; [exact H2|].
  apply (Hback eq_refl eq_refl). by repeat constructor.
Defined.

(** X11.  [scale_contour_to_rect] needs points laid out as
    [(n, 1, 2)].  On a contour over a plain [(n, 2)] array of at least one
    point it raises [IndexError] at the first coordinate: no array is
    changed, and the new [Contour] made at the start stays behind. *)
Theorem scale_contour_to_rect_flat_points (opencv : cv.impl) s c o a n v rect :
  objects s !! c = Some o → heap s !! points o = Some a →
  np.shape a = [S n; 2] → moment o !! "m00" = Some v →
  scale_contour_to_rect opencv c rect s =
    (Raise IndexError,
     State (heap s) (objects s ++ [ContourObj (points o) (moment o) v]) (calls s)).
Proof.
  intros Hc Ha Hsh Hm.
  pose proof (scale_contour_to_rect_any opencv s c rect) as Hrun.
  unfold run in Hrun. rewrite bind_run in Hrun.
  rewrite Hc, Hm, Ha in Hrun. cbv zeta in Hrun.
  unfold np.len in Hrun. rewrite Hsh in Hrun.
  set (o' := ContourObj (points o) (moment o) v) in *.
  set (t := State (heap s) (objects s ++ [o']) (calls s)) in *.
  assert (for_each (seq 0 (S n)) (scale_point (length (objects s)) rect) t
          = (Raise IndexError, t)) as Hloop.
  { simpl. rewrite bind_run. unfold scale_point. rewrite !bind_run.
    assert (objects t !! length (objects s) = Some o') as Hc'
      by (simpl; by rewrite lookup_new).
    assert (heap t !! points o' = Some a) as Ha' by done.
    rewrite (getitem_tuple_run _ _ _ _ _ _ Hc' Ha').
    unfold np.getitem. rewrite Hsh. simpl.
    change (np.norm_index 2 0) with (Some 0). simpl.
    by destruct (np.norm_index (S n) 0). }
  rewrite Hloop in Hrun.
  by destruct (scale_contour_to_rect opencv c rect s) as [[?|?] ?];
    simplify_eq.
Qed.

Lemma scale_contour_to_rect_flat_points_witness :
  let flat := np.NdArray np.int32 [2; 2] [5; 7; 9; 7]%Z in
  let o := ContourObj 0 {["m00" := 0%float]} 0%float in
  scale_contour_to_rect identity_opencv 0 {| rect_x := 5; rect_y := 7 |}
    (State [flat] [o] []) =
    (Raise IndexError, State [flat] [o; o] []).
Proof.
  intros flat o.
  exact (scale_contour_to_rect_flat_points identity_opencv (State [flat] [o] [])
           0 o flat 1 0%float {| rect_x := 5; rect_y := 7 |}
           eq_refl eq_refl eq_refl eq_refl).
Defined.

(** ** rotate_image at the edges *)

(** X12.  [rotate_image] treats missing and empty images unlike the other
    functions.  With [None] it first asks OpenCV for the rotation matrix and
    then fails with [AttributeError] on [image.ndim], not with
    [ValueError("Image is empty")].  With an image of three dimensions and
    no channel it makes no call of [cv.warpAffine] and returns a new array
    of the same shape. *)
Theorem rotate_image_without_samples (opencv : cv.impl) s l a h w
    center angle scale unit M :
  heap s !! l = Some a → np.shape a = [h; w; 0] →
  opencv (cv.getRotationMatrix2D center (to_degrees unit angle) scale) = Ok M →
  let s0 := State (heap s) (objects s)
              (calls s ++ [cv.getRotationMatrix2D center (to_degrees unit angle) scale]) in
  rotate_image opencv None center angle scale unit s
    = (Raise none_has_no_attribute, s0)
  ∧ rotate_image opencv (Some l) center angle scale unit s =
      (Ok (length (heap s)),
       State (heap s ++ [np.NdArray (np.dtype a) [h; w; 0] []]) (objects s)
         (calls s0)).
Proof.
  intros Ha Hsh HM s0. split.
  - unfold rotate_image. rewrite bind_run. unfold cv_call. by rewrite HM.
  - unfold rotate_image. rewrite bind_run. unfold cv_call at 1. rewrite HM.
    simpl. rewrite bind_run. unfold read at 1. simpl. rewrite Ha.
    unfold np.ndim. rewrite Hsh. change (length [h; w; 0]) with 3.
    rewrite decide_False by lia. rewrite decide_True by done.
    rewrite bind_run. unfold alloc at 1. simpl.
    rewrite bind_run. unfold read at 1. simpl. rewrite lookup_new.
    rewrite bind_run. unfold np.last_extent.
    change (np.shape (np.zeros_like a)) with (np.shape a). rewrite Hsh.
    change (last [h; w; 0]) with (Some 0). cbv iota beta.
    unfold mret at 1, M_ret at 1. cbv iota beta. simpl.
    unfold mret, M_ret. do 3 f_equal. unfold np.zeros_like, np.size.
    rewrite Hsh. f_equal. simpl. by rewrite !Nat.mul_0_r.
Qed.

Lemma rotate_image_without_samples_witness :
  let empty := np.NdArray np.uint8 [2; 2; 0] [] in
  let matrix_call := cv.getRotationMatrix2D (0%float, 0%float) 0 1 in
  rotate_image identity_opencv None (0%float, 0%float) 0 1 DEGREES
    (State [empty] [] [])
    = (Raise none_has_no_attribute, State [empty] [] [matrix_call])
  ∧ rotate_image identity_opencv (Some 0) (0%float, 0%float) 0 1 DEGREES
      (State [empty] [] [])
    = (Ok 1, State [empty; empty] [] [matrix_call]).
Proof.
  intros empty matrix_call.
  exact (rotate_image_without_samples identity_opencv (State [empty] [] []) 0
           empty 2 2 (0%float, 0%float) 0%float 1%Z DEGREES _
           eq_refl eq_refl eq_refl).
Defined.

Lemma samples_whole n (l : list Z) : length l = n → np.samples 1 0 n l = l.
Proof.
  intros Hl. apply list_eq. intros j. unfold np.samples.
  rewrite list_lookup_fmap. destruct (decide (j < n)) as [Hj|Hj].
  - rewrite lookup_seq_lt by done. simpl.
    replace (j * 1 + 0) with j by lia.
    destruct (lookup_lt_is_Some_2 l j) as [x Hx]; [lia|]. by rewrite Hx.
  - rewrite lookup_seq_ge by lia. simpl. symmetry. apply lookup_ge_None. lia.
Qed.

Lemma channel_single a h w :
  np.shape a = [h; w; 1] → np.wf a →
  np.channel a 1 0 = np.NdArray (np.dtype a) [h; w] (np.data a).
Proof.
  intros Hsh Hwf. unfold np.channel, np.init_shape. rewrite Hsh.
  change (take _ [h; w; 1]) with [h; w]. f_equal. apply samples_whole.
  unfold np.wf, np.size in Hwf. rewrite Hsh in Hwf. simpl in *. lia.
Qed.

(** X13.  An image of shape [(h, w, 1)] is rotated like the image of shape
    [(h, w)] with the same samples: [rotate_image] makes the same single
    call of [cv.warpAffine] in both cases, and returns the samples that call
    returned, with the third axis and in the type of the image in the first
    case, and as they are in the second.  The samples are the same in both
    cases when the call returns samples of the type of the image. *)
Theorem rotate_image_single_channel (opencv : cv.impl) s l a h w
    center angle scale unit M r :
  let grey := np.NdArray (np.dtype a) [h; w] (np.data a) in
  heap s !! l = Some a → np.wf a → np.shape a = [h; w; 1] →
  opencv (cv.getRotationMatrix2D center (to_degrees unit angle) scale) = Ok M →
  opencv (cv.warpAffine grey M [w; h]) = Ok r →
  np.shape r = [h; w] → np.wf r →
  let log t :=
    calls t ++ [cv.getRotationMatrix2D center (to_degrees unit angle) scale;
                cv.warpAffine grey M [w; h]] in
  rotate_image opencv (Some l) center angle scale unit s =
    (Ok (length (heap s)),
     State (heap s
              ++ [np.NdArray (np.dtype a) [h; w; 1]
                    (np.data (np.astype (np.dtype a) r))])
       (objects s) (log s))
  ∧ (∀ s2 l2, heap s2 !! l2 = Some grey →
      rotate_image opencv (Some l2) center angle scale unit s2 =
        (Ok (length (heap s2)), State (heap s2 ++ [r]) (objects s2) (log s2)))
  ∧ (np.dtype r = np.dtype a → np.typed r → np.astype (np.dtype a) r = r).
Proof.
  intros grey Ha Hwf Hsh HM Hr Hrs Hrw log. split; [|split].
  - destruct (rotate_image_3d opencv s l a center angle scale unit M h w 1
                Ha Hwf Hsh HM) as (out & Hrun & Hout & Htype & Hwout & Hall).
    { intros i Hi. assert (i = 0) as -> by lia.
      rewrite (channel_single _ _ _ Hsh Hwf). by exists r. }
    rewrite Hrun. f_equal. unfold log. simpl. f_equal.
    + do 2 f_equal. destruct (Hall 0 (Nat.lt_0_1)) as (r' & Hr' & Hch).
      rewrite (channel_single a h w Hsh Hwf) in Hr'.
      assert (r' = r) as -> by (unfold grey in Hr; congruence).
      rewrite Hsh in Hout. rewrite (channel_single out h w Hout Hwout) in Hch.
      destruct out as [to sho dout]. simpl in *. subst sho to. f_equal.
      unfold np.astype in Hch. by injection Hch.
    + by rewrite (channel_single _ _ _ Hsh Hwf).
  - intros s2 l2 Ha2. unfold rotate_image.
    rewrite bind_run. unfold cv_call at 1. rewrite HM. simpl.
    rewrite bind_run. unfold read at 1. simpl. rewrite Ha2.
    rewrite decide_True by done. rewrite bind_run. unfold cv_call. simpl.
    change (reverse [h; w]) with [w; h]. rewrite Hr. simpl.
    unfold log. by rewrite <- app_assoc.
  - intros <-. apply astype_same.
Qed.

Lemma rotate_image_single_channel_witness :
  let grey3 := np.NdArray np.uint8 [2; 3; 1] [10; 20; 30; 40; 50; 60]%Z in
  let M := [[1%float; 0%float; 0%float]; [0%float; 1%float; 0%float]] in
  rotate_image identity_opencv (Some 0) (1%float, 1%float) 90 1 DEGREES
    (State [grey3] [] []) =
    (Ok 1,
     State [grey3; grey3] [] 
       [cv.getRotationMatrix2D (1%float, 1%float) 90 1;
        cv.warpAffine grey_2x3 M [3; 2]]).
Proof.
  intros grey3 M.
  exact (proj1 (rotate_image_single_channel identity_opencv
                  (State [grey3] [] []) 0 grey3 2 3 (1%float, 1%float)
                  90%float 1%Z DEGREES M grey_2x3
                  eq_refl eq_refl eq_refl eq_refl eq_refl eq_refl eq_refl)).
Defined.

(** ** Contours on a shared array *)

(** X14.  A [Contour] does not copy its points: two contours built on the
    same array see each other's writes.  After [c1[(i, j)] = v], for a
    Python [int] [v] that is a value of the type of the points, reading
    [c2[(i, j)]] through any contour [c2] on the same points array gives
    [v]. *)
Theorem contours_share_points s c1 c2 o1 o2 t n d (i j : nat) v :
  objects s !! c1 = Some o1 → objects s !! c2 = Some o2 →
  points o1 = points o2 →
  heap s !! points o1 = Some (np.NdArray t [n; 1; 2] d) →
  length d = 2 * n → i < n → j < 2 →
  np.in_range t v →
  ∃ s',
    Contour.__setitem__ c1 (KTuple [Z.of_nat i; Z.of_nat j]) (np.py_int v) s
      = (Ok tt, s')
    ∧ Contour.__getitem__ c2 (KTuple [Z.of_nat i; Z.of_nat j]) s'
      = (Ok (np.NdArray t [] [v]), s').
Proof.
  intros Hc1 Hc2 Hp Ha Hd Hi Hj Hv.
  eexists. split.
  { apply (setitem_tuple_run _ _ _ _ _ _ _
             (np.NdArray t [n; 1; 2] (<[2 * i + j := v]> d)) Hc1 Ha).
    apply setitem_coord; [lia..|]. by apply assigned_py_int. }
  set (s' := State _ _ _).
  assert (objects s' !! c2 = Some o2) as Hc2' by done.
  assert (heap s' !! points o2 =
            Some (np.NdArray t [n; 1; 2] (<[2 * i + j := v]> d))) as Ha'.
  { simpl. rewrite <- Hp. apply list_lookup_insert_eq. by eapply lookup_lt_Some. }
  rewrite (getitem_tuple_run _ _ _ _ _ _ Hc2' Ha'). f_equal.
  apply getitem_coord; [done..|]. apply list_lookup_insert_eq. lia.
Qed.

Lemma contours_share_points_witness :
  let o := ContourObj 3 {["m00" := 8%float]} 8%float in
  let s := State (heap example_state) [o; o] [] in
  ∃ s',
    Contour.__setitem__ 0 (KTuple [2; 0]%Z) (np.py_int 1) s = (Ok tt, s')
    ∧ Contour.__getitem__ 1 (KTuple [2; 0]%Z) s'
      = (Ok (np.NdArray np.int32 [] [1%Z]), s').
Proof.
  intros o s.
  apply (contours_share_points s 0 1 o o np.int32 3 [5; 7; 9; 7; 5; 11]%Z 2 0
           1%Z eq_refl eq_refl eq_refl eq_refl eq_refl
           (le_n 3) (le_S 1 1 (le_n 1))).
  by vm_compute.
Defined.

(** X15.  A write that numpy refuses changes nothing.  For a key of two
    elements, when [points[i, 0, j] = value] raises (index out of range,
    value that cannot be converted or broadcast), [c[(i, j)] = value]
    raises the same exception and leaves the state as it was; on a contour
    of [n] points that is the case, with [IndexError], for every [i]
    outside [-n, n) and every [j] outside [-2, 2). *)
Theorem contour_refused_write s c o a (i j : Z) value :
  objects s !! c = Some o → heap s !! points o = Some a →
  (∀ e, np.setitem a [i; 0%Z; j] value = Raise e →
        Contour.__setitem__ c (KTuple [i; j]) value s = (Raise e, s))
  ∧ (∀ n, np.shape a = [n; 1; 2] →
        (i < - Z.of_nat n ∨ Z.of_nat n ≤ i ∨ j < -2 ∨ 2 ≤ j)%Z →
        Contour.__setitem__ c (KTuple [i; j]) value s = (Raise IndexError, s)).
Proof.
  intros Hc Ha.
  assert (∀ e, np.setitem a [i; 0%Z; j] value = Raise e →
            Contour.__setitem__ c (KTuple [i; j]) value s = (Raise e, s)) as H.
  { intros e He. by rewrite (setitem_tuple_run_any _ _ _ _ _ _ _ Hc Ha), He. }
  split; [done|]. intros n Hsh Hout. apply H.
  unfold np.setitem. rewrite Hsh. simpl.
  destruct (np.norm_index n i) as [k|] eqn:Hk; [|done].
  change (np.norm_index 1 0) with (Some 0).
  destruct (np.norm_index 2 j) as [k'|] eqn:Hk'; [|done].
  exfalso. unfold np.norm_index in Hk, Hk'.
  repeat case_decide; simplify_eq; lia.
Qed.

Lemma contour_refused_write_witness :
  Contour.__setitem__ 0 (KTuple [0; 2]%Z) (np.py_int 1) example_state
    = (Raise IndexError, example_state).
Proof.
  destruct (contour_refused_write example_state 0
              (ContourObj 3 {["m00" := 8%float]} 8%float) triangle 0 2
              (np.py_int 1) eq_refl eq_refl) as [_ Hout].
  apply (Hout 3 eq_refl). lia.
Defined.
